(** * Baseball-Simulator: the game state machine and the batch driver

    A shallow embedding of the two simulators of the repository,
    [baseball_sim.py] (module [Sim]) and [baseball_sim_with_scrape.py]
    (module [Scrape]), and the properties of the at-bat resolution, of the
    end-of-game test and of the batch loop that their specification states.

    Python integers are [Z]; Python lists are [list]; an indexing that
    Python rejects raises [IndexError]; a [while] loop is run on fuel.
    Floating-point probabilities and rates are idealised as rationals. *)

From Stdlib Require Import ZArith QArith Qabs List String Bool Lia.
Import ListNotations.

Local Open Scope string_scope.
Local Open Scope list_scope.
Local Open Scope Z_scope.

(** ** Python values and exceptions *)

Inductive exn : Type :=
| IndexError
| ValueError
| ZeroDivisionError.

(** The outcome of running a piece of Python: a value, a raised
    exception, or (for a loop run on fuel) no answer yet. *)
Inductive result (A : Type) : Type :=
| Ok (a : A)
| Raise (e : exn)
| OutOfFuel.

Arguments Ok {A} a.
Arguments Raise {A} e.
Arguments OutOfFuel {A}.

Definition rbind {A B : Type} (m : result A) (k : A -> result B) : result B :=
  match m with
  | Ok a => k a
  | Raise e => Raise e
  | OutOfFuel => OutOfFuel
  end.

Declare Scope result_scope.
Delimit Scope result_scope with result.
Notation "x <- m ;; k" := (rbind m (fun x => k))
  (at level 61, m at next level, right associativity) : result_scope.
Notation "' pat <- m ;; k" := (rbind m (fun x => match x with pat => k end))
  (at level 61, pat pattern, m at next level, right associativity) : result_scope.

(** [l[i]] with Python's negative indices. *)
Definition py_index (A : Type) (l : list A) (i : Z) : option nat :=
  let n := Z.of_nat (List.length l) in
  if (0 <=? i) && (i <? n) then Some (Z.to_nat i)
  else if (i <? 0) && (0 <=? n + i) then Some (Z.to_nat (n + i))
  else None.
Arguments py_index {A} l i.

Definition py_get {A : Type} (l : list A) (i : Z) : result A :=
  match py_index l i with
  | Some k => match nth_error l k with Some a => Ok a | None => Raise IndexError end
  | None => Raise IndexError
  end.

Fixpoint set_nth {A : Type} (l : list A) (k : nat) (v : A) : list A :=
  match l, k with
  | [], _ => []
  | _ :: t, O => v :: t
  | h :: t, S k' => h :: set_nth t k' v
  end.

(** [l[i] = v]. *)
Definition py_set {A : Type} (l : list A) (i : Z) (v : A) : result (list A) :=
  match py_index l i with
  | Some k => Ok (set_nth l k v)
  | None => Raise IndexError
  end.

(** [sum(l)] *)
Definition sum (l : list Z) : Z := fold_left Z.add l 0.

(** ** The random source

    [np.random] is one process-wide generator.  Its state is the sequence
    of 53-bit integers still to be drawn and a cursor; [random_sample]
    yields [k / 2^53], a number of the half-open unit interval. *)

Record RandomState : Type := mkRandomState {
  stream : nat -> N;
  pos : nat
}.

Definition random_sample (r : RandomState) : Q * RandomState :=
  (Z.of_N (stream r (pos r) mod 2 ^ 53) # 2 ^ 53,
   {| stream := stream r; pos := S (pos r) |}).

(** A [pd.Series] of probabilities: the index labels with their values. *)
Definition Series : Type := list (string * Q).

Definition values (p : Series) : list Q := map snd p.

Definition Qsum (l : list Q) : Q := fold_left Qplus l 0%Q.

(** [cdf.searchsorted(u, side='right')] on the normalised running sums:
    the first label whose cumulative weight exceeds [u]. *)
Fixpoint searchsorted (p : Series) (total acc u : Q) : option string :=
  match p with
  | [] => None
  | (label, w) :: p' =>
      let acc' := (acc + w)%Q in
      if Qlt_le_dec u (acc' / total)%Q then Some label
      else searchsorted p' total acc' u
  end.

(** [np.random.choice(probs.index, p=probs.values)]: the weights must be
    non-negative and sum to one within [sqrt(eps) = 2^-26]. *)
Definition choice (p : Series) (r : RandomState) : result (string * RandomState) :=
  let total := Qsum (values p) in
  if existsb (fun w => if Qlt_le_dec w 0 then true else false) (values p)
  then Raise ValueError
  else if Qlt_le_dec (1 # 2 ^ 26) (Qabs (total - 1))
  then Raise ValueError
  else
    let (u, r') := random_sample r in
    match searchsorted p total 0 u with
    | Some label => Ok (label, r')
    | None => Raise IndexError
    end.

(** ** Player and Team (the same in both files, the statistics apart) *)

Record Player : Type := mkPlayer {
  probs : Series;
  stats : list string
}.

Record Team : Type := mkTeam {
  players : list Player;
  record : list Z
}.

(** [Player.at_bat] *)
Definition at_bat (p : Player) (r : RandomState)
  : result (string * Player * RandomState) :=
  (' (outcome, r') <- choice (probs p) r ;;
   Ok (outcome, {| probs := probs p; stats := stats p ++ [outcome] |}, r'))%result.

(** [ab != label] *)
Definition differs (label ab : string) : bool := negb (String.eqb ab label).

Definition ratio (n d : nat) : Q := (Z.of_nat n # 1) / (Z.of_nat d # 1).

(** [len(num) / len(den)]: Python raises when [den] is empty. *)
Definition py_div (n d : nat) : result Q :=
  match d with
  | O => Raise ZeroDivisionError
  | S _ => Ok (ratio n d)
  end.

(** ** State and exceptions together

    A method that reads and writes the objects of the process is a
    function from the store to a [result] with the new store. *)

Definition St (S A : Type) : Type := S -> result (A * S).

Definition ret {S A : Type} (a : A) : St S A := fun s => Ok (a, s).

Definition bind {S A B : Type} (m : St S A) (k : A -> St S B) : St S B :=
  fun s =>
    match m s with
    | Ok (a, s') => k a s'
    | Raise e => Raise e
    | OutOfFuel => OutOfFuel
    end.

Definition lift {S A : Type} (r : result A) : St S A :=
  fun s => rbind r (fun a => Ok (a, s)).

Definition gets {S A : Type} (f : S -> A) : St S A := fun s => Ok (f s, s).

Declare Scope st_scope.
Delimit Scope st_scope with st.
Notation "x <- m ;; k" := (bind m (fun x => k))
  (at level 61, m at next level, right associativity) : st_scope.
Notation "' pat <- m ;; k" := (bind m (fun x => match x with pat => k end))
  (at level 61, pat pattern, m at next level, right associativity) : st_scope.
Notation "m ;;; k" := (bind m (fun _ => k))
  (at level 61, right associativity) : st_scope.

(** One game of the log: [{"final_score": ..., "winner": ...}]. *)
Record GameResult : Type := mkGameResult {
  final_score : list Z;
  winner : Z
}.

(** [self.teams[t].players[k].at_bat()], on a store that holds the teams
    and the generator. *)
Definition draw {S : Type} (get_teams : S -> list Team) (get_rng : S -> RandomState)
    (put : list Team -> RandomState -> S -> S) (t k : Z) : St S string :=
  fun s =>
    (team <- py_get (get_teams s) t ;;
     player <- py_get (players team) k ;;
     ' (outcome, player', r') <- at_bat player (get_rng s) ;;
     ps <- py_set (players team) k player' ;;
     ts <- py_set (get_teams s) t {| players := ps; record := record team |} ;;
     Ok (outcome, put ts r' s))%result.

(** [teams[t].record[i] += 1] *)
Definition bump_record (teams : list Team) (t i : Z) : result (list Team) :=
  (team <- py_get teams t ;;
   x <- py_get (record team) i ;;
   rec <- py_set (record team) i (x + 1) ;;
   py_set teams t {| players := players team; record := rec |})%result.

(** * baseball_sim.py *)

Module Sim.

(** [Player.OBP] *)
Definition OBP (p : Player) : result Q :=
  let nonouts := filter (differs "OUT") (stats p) in
  py_div (List.length nonouts) (List.length (stats p)).

(** [Player.AVE] *)
Definition AVE (p : Player) : result Q :=
  let apps := filter (differs "WALK") (stats p) in
  let hits := filter (differs "OUT") apps in
  py_div (List.length hits) (List.length apps).

(** [Player.bases] *)
Definition Player_bases (hit_type : string) : Z :=
  if String.eqb hit_type "WALK" || String.eqb hit_type "1B" then 1
  else if String.eqb hit_type "2B" then 2
  else if String.eqb hit_type "3B" then 3
  else if String.eqb hit_type "HR" then 4
  else 0.

(** [Player.slugging] *)
Definition slugging (p : Player) : result Q :=
  match stats p with
  | [] => Raise ZeroDivisionError
  | _ => Ok ((sum (map Player_bases (stats p)) # 1) / (Z.of_nat (List.length (stats p)) # 1))%Q
  end.

(** The lists that [Game.__init__] takes as default arguments,
    [bases=[0, 0, 0]], [score=[0, 0]] and [current_player=[0, 0]], are
    built once, when the class is defined.  A [Game] built without these
    arguments refers to those very lists: an attribute is either that
    default list ([Default]) or a list of the game's own ([Own]). *)
Inductive ref : Type :=
| Default
| Own (l : list Z).

Record Game : Type := mkGame {
  inning : Z;
  outs : Z;
  away_or_home : Z;
  bases : ref;
  score : ref;
  game_on : bool;
  current_player : ref
}.

(** The objects that outlive a game: the teams, the three default lists
    and the generator.  The teams are objects of their own, each with
    players of its own, as [build_rosters_from_team_probs] makes them. *)
Record World : Type := mkWorld {
  teams : list Team;
  dflt_bases : list Z;
  dflt_score : list Z;
  dflt_current_player : list Z;
  rng : RandomState
}.

Definition M : Type -> Type := St World.

(** The store of a process in which no game has been built yet. *)
Definition boot (ts : list Team) (r : RandomState) : World :=
  {| teams := ts; dflt_bases := [0; 0; 0]; dflt_score := [0; 0];
     dflt_current_player := [0; 0]; rng := r |}.

(** [Game(teams)], as [Simulator.simulate] calls it. *)
Definition Game_init : Game :=
  {| inning := 1; outs := 0; away_or_home := 0; bases := Default;
     score := Default; game_on := true; current_player := Default |}.

Definition set_inning (g : Game) (v : Z) : Game :=
  mkGame v (outs g) (away_or_home g) (bases g) (score g) (game_on g) (current_player g).
Definition set_outs (g : Game) (v : Z) : Game :=
  mkGame (inning g) v (away_or_home g) (bases g) (score g) (game_on g) (current_player g).
Definition set_away_or_home (g : Game) (v : Z) : Game :=
  mkGame (inning g) (outs g) v (bases g) (score g) (game_on g) (current_player g).
Definition set_bases (g : Game) (v : ref) : Game :=
  mkGame (inning g) (outs g) (away_or_home g) v (score g) (game_on g) (current_player g).
Definition set_score (g : Game) (v : ref) : Game :=
  mkGame (inning g) (outs g) (away_or_home g) (bases g) v (game_on g) (current_player g).
Definition set_game_on (g : Game) (v : bool) : Game :=
  mkGame (inning g) (outs g) (away_or_home g) (bases g) (score g) v (current_player g).

(** The list an attribute refers to, [d] being the default list. *)
Definition look (d : list Z) (r : ref) : list Z :=
  match r with
  | Default => d
  | Own l => l
  end.

Definition deref (dflt : World -> list Z) (r : ref) : M (list Z) :=
  gets (fun w => look (dflt w) r).

Definition get_bases (g : Game) : M (list Z) := deref dflt_bases (bases g).
Definition get_score (g : Game) : M (list Z) := deref dflt_score (score g).
Definition get_current_player (g : Game) : M (list Z) :=
  deref dflt_current_player (current_player g).

(** Writing into the list an attribute refers to: a write through
    [Default] changes the default list itself. *)
Definition mutate_bases (g : Game) (l : list Z) : M Game :=
  match bases g with
  | Default =>
      fun w => Ok (g, mkWorld (teams w) l (dflt_score w) (dflt_current_player w) (rng w))
  | Own _ => ret (set_bases g (Own l))
  end.

Definition mutate_score (g : Game) (l : list Z) : M Game :=
  match score g with
  | Default =>
      fun w => Ok (g, mkWorld (teams w) (dflt_bases w) l (dflt_current_player w) (rng w))
  | Own _ => ret (set_score g (Own l))
  end.

Definition mutate_current_player (g : Game) (l : list Z) : M Game :=
  match current_player g with
  | Default =>
      fun w => Ok (g, mkWorld (teams w) (dflt_bases w) (dflt_score w) l (rng w))
  | Own _ =>
      ret (mkGame (inning g) (outs g) (away_or_home g) (bases g) (score g)
             (game_on g) (Own l))
  end.

(** [self.score[self.away_or_home] += runs] *)
Definition add_runs (g : Game) (runs : Z) : M Game :=
  (s <- get_score g ;;
   x <- lift (py_get s (away_or_home g)) ;;
   s' <- lift (py_set s (away_or_home g) (x + runs)) ;;
   mutate_score g s')%st.

(** One round of the loop of [walker]. *)
Definition force (b : list Z) (i : Z) : result (list Z) :=
  (x <- py_get b i ;;
   if x =? 2 then
     b1 <- py_set b i (x - 1) ;;
     y <- py_get b1 (i + 1) ;;
     py_set b1 (i + 1) (y + 1)
   else Ok b)%result.

(** The list that [walker] has built when its loop ends. *)
Definition walked (b : list Z) : result (list Z) :=
  (let b0 := b ++ [0] in
   x <- py_get b0 0 ;;
   b1 <- py_set b0 0 (x + 1) ;;
   b2 <- force b1 0 ;;
   b3 <- force b2 1 ;;
   force b3 2)%result.

(** [Game.walker]: [append] and the item assignments change the list
    that [self.bases] refers to; the slice is a new list. *)
Definition walker (g : Game) : M Game :=
  (b <- get_bases g ;;
   b' <- lift (walked b) ;;
   g <- mutate_bases g b' ;;
   runs <- lift (py_get b' (-1)) ;;
   add_runs (set_bases g (Own (firstn 3 b'))) runs)%st.

(** The list that [hitter] builds in front of the slices. *)
Definition batted (hit_type : string) (b : list Z) : list Z :=
  if String.eqb hit_type "1B" then [1; 0] ++ b
  else if String.eqb hit_type "2B" then [0; 1] ++ b
  else if String.eqb hit_type "3B" then [0; 0; 1] ++ b
  else if String.eqb hit_type "HR" then [0; 0; 0; 1] ++ b
  else b.

(** [Game.hitter] *)
Definition hitter (hit_type : string) (g : Game) : M Game :=
  (b <- get_bases g ;;
   let b' := batted hit_type b in
   let runs := sum (skipn 3 b') in
   add_runs (set_bases g (Own (firstn 3 b'))) runs)%st.

(** [handle_at_bat], the branch on the result of the at-bat. *)
Definition resolve (res : string) (g : Game) : M Game :=
  if String.eqb res "OUT" then ret (set_outs g (outs g + 1))
  else if String.eqb res "BB" then walker g
  else hitter res g.

(** [handle_at_bat], the test that ends the game; [and] and [or] read the
    score only when they come to it. *)
Definition game_over (g : Game) : M bool :=
  (s <- get_score g ;;
   first <-
     (if (9 <=? inning g)
         && (((3 <=? outs g) && (away_or_home g =? 0)) || (away_or_home g =? 1))
      then s0 <- lift (py_get s 0) ;; s1 <- lift (py_get s 1) ;; ret (s0 <? s1)
      else ret false) ;;
   if first : bool then ret true
   else if (9 <=? inning g) && (3 <=? outs g)
   then s0 <- lift (py_get s 0) ;; s1 <- lift (py_get s 1) ;; ret (s1 <? s0)
   else ret false)%st.

(** [handle_at_bat], the end of the half-inning. *)
Definition change_sides (g : Game) : M Game :=
  if 3 <=? outs g then
    (let g1 := if away_or_home g =? 1 then set_inning g (inning g + 1) else g in
     let g2 := set_outs g1 0 in
     cp <- get_current_player g2 ;;
     k <- lift (py_get cp (away_or_home g2)) ;;
     cp' <- lift (py_set cp (away_or_home g2) ((k + 1) mod 9)) ;;
     g3 <- mutate_current_player g2 cp' ;;
     let g4 := set_away_or_home g3 ((away_or_home g3 + 1) mod 2) in
     ret (set_bases g4 (Own [0; 0; 0])))%st
  else ret g.

(** [handle_at_bat], from the result of the at-bat on. *)
Definition settle (res : string) (g : Game) : M Game :=
  (g <- resolve res g ;;
   over <- game_over g ;;
   change_sides (if over : bool then set_game_on g false else g))%st.

Definition put_teams_rng (ts : list Team) (r : RandomState) (w : World) : World :=
  mkWorld ts (dflt_bases w) (dflt_score w) (dflt_current_player w) r.

(** [Game.handle_at_bat] *)
Definition handle_at_bat (g : Game) : M Game :=
  (cp <- get_current_player g ;;
   k <- lift (py_get cp (away_or_home g)) ;;
   res <- draw teams rng put_teams_rng (away_or_home g) k ;;
   settle res g)%st.

(** [while self.game_on: self.handle_at_bat()], on fuel. *)
Fixpoint play (fuel : nat) (g : Game) : M Game :=
  if game_on g then
    match fuel with
    | O => fun _ => OutOfFuel
    | S fuel' => (g' <- handle_at_bat g ;; play fuel' g')%st
    end
  else ret g.

(** [self.teams[t].record[i] += 1] *)
Definition bump (t i : Z) : M unit :=
  fun w => rbind (bump_record (teams w) t i)
             (fun ts => Ok (tt, put_teams_rng ts (rng w) w)).

(** [n] calls of [handle_at_bat] in a row. *)
Fixpoint at_bats (n : nat) (g : Game) : M Game :=
  match n with
  | O => ret g
  | S n' => (g' <- handle_at_bat g ;; at_bats n' g')%st
  end.

(** [Game.play_game]: the game, the two records, and the attributes set
    back for a next game. *)
Definition play_game (fuel : nat) (g : Game) : M (GameResult * Game) :=
  (g <- play fuel g ;;
   s <- get_score g ;;
   s0 <- lift (py_get s 0) ;;
   s1 <- lift (py_get s 1) ;;
   let winner := if s0 <? s1 then 1 else 0 in
   bump 0 winner ;;;
   bump 1 ((winner + 1) mod 2) ;;;
   ret ({| final_score := s; winner := winner |},
        {| inning := 1; outs := 0; away_or_home := 0; bases := Own [0; 0; 0];
           score := Own [0; 0]; game_on := true;
           current_player := current_player g |}))%st.

(** The loop of [Simulator.simulate]. *)
Fixpoint games (fuel : nat) (its : nat) (wins : Z) (game_log : list GameResult)
  : M (Z * list GameResult) :=
  match its with
  | O => ret (wins, game_log)
  | S its' =>
      (' (res, _) <- play_game fuel Game_init ;;
       games fuel its' (wins + winner res) (game_log ++ [res]))%st
  end.

(** [Simulator.simulate]; the message it prints divides by [its]. *)
Definition simulate (fuel : nat) (its : Z) : M (list GameResult) :=
  (' (wins, game_log) <- games fuel (Z.to_nat its) 0 [] ;;
   if its =? 0 then lift (Raise ZeroDivisionError) else ret game_log)%st.

End Sim.

(** * baseball_sim_with_scrape.py *)

Module Scrape.

(** [Player.OBP] *)
Definition OBP (p : Player) : result Q :=
  let nonouts := filter (differs "OUT") (stats p) in
  match stats p with
  | [] => Ok 0%Q
  | _ => py_div (List.length nonouts) (List.length (stats p))
  end.

(** [Player.AVE] *)
Definition AVE (p : Player) : result Q :=
  let apps := filter (differs "WALK") (stats p) in
  let hits := filter (differs "OUT") apps in
  match apps with
  | [] => Ok 0%Q
  | _ => py_div (List.length hits) (List.length apps)
  end.

(** [Player.bases] *)
Definition Player_bases (hit_type : string) : Z :=
  if String.eqb hit_type "WALK" then 1
  else if String.eqb hit_type "1B" then 1
  else if String.eqb hit_type "2B" then 2
  else if String.eqb hit_type "3B" then 3
  else if String.eqb hit_type "HR" then 4
  else 0.

(** [Player.slugging] *)
Definition slugging (p : Player) : result Q :=
  match stats p with
  | [] => Ok 0%Q
  | _ => Ok ((sum (map Player_bases (stats p)) # 1) / (Z.of_nat (List.length (stats p)) # 1))%Q
  end.

(** The items of [np.array([0, 0, 0])] are integers of 64 bits, numpy's
    default integer, and so is a score once a run taken from the array
    has been added to it. *)
Definition int64 (z : Z) : Z := (z + 2 ^ 63) mod 2 ^ 64 - 2 ^ 63.

Record Game : Type := mkGame {
  inning : Z;
  outs : Z;
  away_or_home : Z;
  bases : list Z;
  score : list Z;
  game_on : bool;
  current_player : list Z
}.

Record World : Type := mkWorld {
  teams : list Team;
  rng : RandomState
}.

Definition M : Type -> Type := St World.

(** [Game(teams)] *)
Definition Game_init : Game :=
  {| inning := 1; outs := 0; away_or_home := 0; bases := [0; 0; 0];
     score := [0; 0]; game_on := true; current_player := [0; 0] |}.

Definition set_inning (g : Game) (v : Z) : Game :=
  mkGame v (outs g) (away_or_home g) (bases g) (score g) (game_on g) (current_player g).
Definition set_outs (g : Game) (v : Z) : Game :=
  mkGame (inning g) v (away_or_home g) (bases g) (score g) (game_on g) (current_player g).
Definition set_away_or_home (g : Game) (v : Z) : Game :=
  mkGame (inning g) (outs g) v (bases g) (score g) (game_on g) (current_player g).
Definition set_bases (g : Game) (v : list Z) : Game :=
  mkGame (inning g) (outs g) (away_or_home g) v (score g) (game_on g) (current_player g).
Definition set_score (g : Game) (v : list Z) : Game :=
  mkGame (inning g) (outs g) (away_or_home g) (bases g) v (game_on g) (current_player g).
Definition set_game_on (g : Game) (v : bool) : Game :=
  mkGame (inning g) (outs g) (away_or_home g) (bases g) (score g) v (current_player g).

(** [self.score[self.away_or_home] += runs] *)
Definition add_runs (g : Game) (runs : Z) : result Game :=
  (x <- py_get (score g) (away_or_home g) ;;
   s' <- py_set (score g) (away_or_home g) (int64 (x + runs)) ;;
   Ok (set_score g s'))%result.

(** One round of the loop of [walker]. *)
Definition force (b : list Z) (i : Z) : result (list Z) :=
  (x <- py_get b i ;;
   if x =? 2 then
     b1 <- py_set b i (int64 (x - 1)) ;;
     y <- py_get b1 (i + 1) ;;
     py_set b1 (i + 1) (int64 (y + 1))
   else Ok b)%result.

(** The array that [walker] has built when its loop ends. *)
Definition walked (b : list Z) : result (list Z) :=
  (let b0 := b ++ [0] in
   x <- py_get b0 0 ;;
   b1 <- py_set b0 0 (int64 (x + 1)) ;;
   b2 <- force b1 0 ;;
   b3 <- force b2 1 ;;
   force b3 2)%result.

(** [Game.walker] *)
Definition walker (g : Game) : result Game :=
  (b' <- walked (bases g) ;;
   runs <- py_get b' (-1) ;;
   add_runs (set_bases g (firstn 3 b')) runs)%result.

(** The array that [hitter] builds in front of the slices. *)
Definition batted (hit_type : string) (b : list Z) : list Z :=
  if String.eqb hit_type "1B" then firstn 4 ([1] ++ b)
  else if String.eqb hit_type "2B" then firstn 4 ([0; 1] ++ b)
  else if String.eqb hit_type "3B" then firstn 4 ([0; 0; 1] ++ b)
  else if String.eqb hit_type "HR" then firstn 4 ([0; 0; 0; 1] ++ b)
  else b.

(** [arr.sum()] of 64-bit integers. *)
Definition sum64 (l : list Z) : Z := fold_left (fun a x => int64 (a + x)) l 0.

(** [Game.hitter] *)
Definition hitter (hit_type : string) (g : Game) : result Game :=
  let b' := batted hit_type (bases g) in
  let runs := sum64 (skipn 3 b') in
  add_runs (set_bases g (firstn 3 b')) runs.

(** [handle_at_bat], the branch on the result of the at-bat. *)
Definition resolve (res : string) (g : Game) : result Game :=
  if String.eqb res "OUT" then Ok (set_outs g (outs g + 1))
  else if String.eqb res "WALK" then walker g
  else hitter res g.

(** [handle_at_bat], the test that ends the game. *)
Definition game_over (g : Game) : result bool :=
  if (9 <=? inning g)
     && (((3 <=? outs g) && (away_or_home g =? 0)) || (away_or_home g =? 1))
  then (s0 <- py_get (score g) 0 ;;
        s1 <- py_get (score g) 1 ;;
        Ok (negb (s0 =? s1)))%result
  else Ok false.

(** [handle_at_bat], the end of the half-inning. *)
Definition change_sides (g : Game) : Game :=
  if 3 <=? outs g then
    let g1 := if away_or_home g =? 1 then set_inning g (inning g + 1) else g in
    let g2 := set_outs g1 0 in
    let g3 := set_away_or_home g2 ((away_or_home g2 + 1) mod 2) in
    set_bases g3 [0; 0; 0]
  else g.

(** [handle_at_bat], from the result of the at-bat on. *)
Definition settle (res : string) (g : Game) : result Game :=
  (g <- resolve res g ;;
   over <- game_over g ;;
   Ok (change_sides (if over : bool then set_game_on g false else g)))%result.

Definition put_teams_rng (ts : list Team) (r : RandomState) (_ : World) : World :=
  mkWorld ts r.

(** [Game.handle_at_bat] *)
Definition handle_at_bat (g : Game) : M Game :=
  (k <- lift (py_get (current_player g) (away_or_home g)) ;;
   res <- draw teams rng put_teams_rng (away_or_home g) k ;;
   lift (settle res g))%st.

(** [while self.game_on: self.handle_at_bat()], on fuel. *)
Fixpoint play (fuel : nat) (g : Game) : M Game :=
  if game_on g then
    match fuel with
    | O => fun _ => OutOfFuel
    | S fuel' => (g' <- handle_at_bat g ;; play fuel' g')%st
    end
  else ret g.

(** [self.teams[t].update_record(win)] *)
Definition update_record (t : Z) (win : bool) : M unit :=
  fun w => rbind (bump_record (teams w) t (if win then 0 else 1))
             (fun ts => Ok (tt, put_teams_rng ts (rng w) w)).

(** [n] calls of [handle_at_bat] in a row. *)
Fixpoint at_bats (n : nat) (g : Game) : M Game :=
  match n with
  | O => ret g
  | S n' => (g' <- handle_at_bat g ;; at_bats n' g')%st
  end.

(** [Game.play_game] *)
Definition play_game (fuel : nat) (g : Game) : M (GameResult * Game) :=
  (g <- play fuel g ;;
   s1 <- lift (py_get (score g) 1) ;;
   s0 <- lift (py_get (score g) 0) ;;
   let winner := if s0 <? s1 then 1 else 0 in
   update_record winner true ;;;
   update_record (1 - winner) false ;;;
   ret ({| final_score := score g; winner := winner |}, g))%st.

(** The loop of [Simulator.simulate]. *)
Fixpoint games (fuel : nat) (its : nat) (wins : Z) (game_log : list GameResult)
  : M (Z * list GameResult) :=
  match its with
  | O => ret (wins, game_log)
  | S its' =>
      (' (res, _) <- play_game fuel Game_init ;;
       games fuel its' (wins + winner res) (game_log ++ [res]))%st
  end.

(** [Simulator.simulate]; the message it prints divides by [its]. *)
Definition simulate (fuel : nat) (its : Z) : M (list GameResult) :=
  (' (wins, game_log) <- games fuel (Z.to_nat its) 0 [] ;;
   if its =? 0 then lift (Raise ZeroDivisionError) else ret game_log)%st.

End Scrape.

(** * Scenarios *)

(** The distribution [{label: 1.0}]. *)
Definition certainly (label : string) : Series := [(label, 1%Q)].

(** [Team([Player(p) for _ in range(9)])] *)
Definition roster (p : Series) : Team :=
  {| players := repeat {| probs := p; stats := [] |} 9; record := [0; 0] |}.

Definition sluggers : Team := roster (certainly "HR").
Definition walkers : Team := roster (certainly "WALK").

(** The generator one draw later. *)
Definition next (r : RandomState) : RandomState :=
  {| stream := stream r; pos := S (pos r) |}.

(** A generator whose every draw is [0]. *)
Definition zeros : RandomState := {| stream := fun _ => 0%N; pos := 0 |}.

(** Batters who homer or are out, each with probability one half, and a
    generator whose draws are all [1/2] (an out) but the one of index 51,
    which is [0] (a home run): the first at-bat after eight scoreless
    innings and a scoreless top of the ninth. *)
Definition coin : Series := [("HR", 1 # 2); ("OUT", 1 # 2)]%Q.

Definition one_homer : RandomState :=
  {| stream := fun n => if Nat.eqb n 51 then 0%N else (2 ^ 52)%N; pos := 0 |}.

Definition duel : list Team := [roster coin; roster coin].

(** The same batters, and a generator whose one home run is the draw of
    index 3: the first at-bat of the home side. *)
Definition early_homer : RandomState :=
  {| stream := fun n => if Nat.eqb n 3 then 0%N else (2 ^ 52)%N; pos := 0 |}.

(** The bottom of the ninth of a game tied at three, nobody out. *)
Definition bottom_of_ninth : Sim.Game :=
  {| Sim.inning := 9; Sim.outs := 0; Sim.away_or_home := 1;
     Sim.bases := Sim.Own [0; 0; 0]; Sim.score := Sim.Own [3; 3];
     Sim.game_on := true; Sim.current_player := Sim.Default |}.

(** The away side at bat in the first inning with a runner on second. *)
Definition runner_on_second : Sim.Game :=
  {| Sim.inning := 1; Sim.outs := 0; Sim.away_or_home := 0;
     Sim.bases := Sim.Own [0; 1; 0]; Sim.score := Sim.Own [0; 0];
     Sim.game_on := true; Sim.current_player := Sim.Default |}.

(** The rosters after the batter at the head of the away order has been
    credited with [n] more at-bats that ended in [label]. *)
Definition credited (n : nat) (label : string) (ts : list Team) : list Team :=
  match ts with
  | {| players := p :: ps; record := rec |} :: rest =>
      {| players := {| probs := probs p; stats := stats p ++ repeat label n |} :: ps;
         record := rec |} :: rest
  | _ => ts
  end.

(** Two rosters of nine batters who all have the distribution
    [{'HR': 1.0}]. *)
Definition all_sluggers (ts : list Team) : Prop :=
  List.length ts = 2%nat /\
  Forall (fun t => List.length (players t) = 9%nat /\
                   Forall (fun p => probs p = certainly "HR") (players t)) ts.

(** The top of the first inning of a game in which the away side has
    batted [n] times for [n] home runs, [ts] and [r] being the rosters and
    the generator that the game started with. *)
Definition sim_slugfest (ts : list Team) (r : RandomState) (n : nat)
    (g : Sim.Game) (w : Sim.World) : Prop :=
  Sim.inning g = 1 /\ Sim.outs g = 0 /\ Sim.away_or_home g = 0 /\
  Sim.game_on g = true /\
  Sim.look (Sim.dflt_bases w) (Sim.bases g) = [0; 0; 0] /\
  Sim.look (Sim.dflt_score w) (Sim.score g) = [Z.of_nat n; 0] /\
  Sim.look (Sim.dflt_current_player w) (Sim.current_player g) = [0; 0] /\
  Sim.teams w = credited n "HR" ts /\
  Sim.rng w = Nat.iter n next r.

Definition scrape_slugfest (ts : list Team) (r : RandomState) (n : nat)
    (g : Scrape.Game) (w : Scrape.World) : Prop :=
  Scrape.inning g = 1 /\ Scrape.outs g = 0 /\ Scrape.away_or_home g = 0 /\
  Scrape.game_on g = true /\
  Scrape.bases g = [0; 0; 0] /\
  Scrape.score g = [Scrape.int64 (Z.of_nat n); 0] /\
  Scrape.current_player g = [0; 0] /\
  Scrape.teams w = credited n "HR" ts /\
  Scrape.rng w = Nat.iter n next r.

(** The away side at bat in the first inning with the bases loaded, and
    with a runner on third only. *)
Definition bases_loaded : Scrape.Game :=
  {| Scrape.inning := 1; Scrape.outs := 0; Scrape.away_or_home := 0;
     Scrape.bases := [1; 1; 1]; Scrape.score := [0; 0];
     Scrape.game_on := true; Scrape.current_player := [0; 0] |}.

Definition runner_on_third : Scrape.Game :=
  {| Scrape.inning := 1; Scrape.outs := 0; Scrape.away_or_home := 0;
     Scrape.bases := [0; 0; 1]; Scrape.score := [0; 0];
     Scrape.game_on := true; Scrape.current_player := [0; 0] |}.

(** The runners on base. *)
Definition on_base (b : list Z) : Z := sum b.

(** The batters of [duel] later in a season: each has batted twice, and
    the teams have records of their own. *)
Definition veterans : list Team :=
  [ {| players := repeat {| probs := coin; stats := ["HR"; "OUT"] |} 9;
       record := [5; 2] |};
    {| players := repeat {| probs := coin; stats := ["OUT"; "OUT"] |} 9;
       record := [2; 5] |} ].

(** The rule of the amended end-of-game claim, for the inning [i], the
    batting side, the outs [o] and the score [s0]-[s1] that an at-bat has
    led to, [on] telling whether the game goes on after it. *)
Definition end_rule (i side o s0 s1 : Z) (on : bool) : Prop :=
  (9 <= i -> side = 1 -> 3 <= o -> s0 <> s1 -> on = false) /\
  (9 <= i -> side = 1 -> s0 < s1 -> on = false) /\
  (9 <= i -> side = 0 -> 3 <= o -> s0 < s1 -> on = false) /\
  (s0 = s1 -> on = true) /\
  (i < 9 -> on = true) /\
  (side = 0 -> o < 3 -> on = true).

(** What two rosters have in common when they field the same batters:
    the distributions, player by player, and the size of the records. *)
Definition shape (t : Team) : list Series * nat :=
  (map probs (players t), List.length (record t)).

Definition same_rosters (ts1 ts2 : list Team) : Prop :=
  map shape ts1 = map shape ts2.

(** Two stores of [baseball_sim.py] that differ at most in what the
    batters have done so far and in the records of the teams. *)
Definition akin (w1 w2 : Sim.World) : Prop :=
  same_rosters (Sim.teams w1) (Sim.teams w2) /\
  Sim.dflt_bases w1 = Sim.dflt_bases w2 /\
  Sim.dflt_score w1 = Sim.dflt_score w2 /\
  Sim.dflt_current_player w1 = Sim.dflt_current_player w2 /\
  Sim.rng w1 = Sim.rng w2.

(** Two runs that end the same way, with the same value, on akin stores. *)
Definition alike {A : Type} (x y : result (A * Sim.World)) : Prop :=
  match x, y with
  | Ok (a, w1), Ok (b, w2) => a = b /\ akin w1 w2
  | Raise e1, Raise e2 => e1 = e2
  | OutOfFuel, OutOfFuel => True
  | _, _ => False
  end.

(** A computation that cannot tell akin stores apart. *)
Definition blind {A : Type} (m : Sim.M A) : Prop :=
  forall w1 w2, akin w1 w2 -> alike (m w1) (m w2).

(** The value of a computation, without the store. *)
Definition value {S A : Type} (x : result (A * S)) : result A :=
  rbind x (fun p => Ok (fst p)).

(** [np.random.seed(S)], as [baseball_sim_tool.py] and [web_app.py] call
    it before a batch: the generator is put in the state [r] that the
    seed stands for, and the rest of the process is left as it is. *)
Definition seed (r : RandomState) (w : Sim.World) : Sim.World :=
  Sim.put_teams_rng (Sim.teams w) r w.

(** Two stores of [baseball_sim_with_scrape.py] that differ at most in
    what the batters have done so far and in the records of the teams. *)
Definition scrape_akin (w1 w2 : Scrape.World) : Prop :=
  same_rosters (Scrape.teams w1) (Scrape.teams w2) /\
  Scrape.rng w1 = Scrape.rng w2.

Definition scrape_alike {A : Type} (x y : result (A * Scrape.World)) : Prop :=
  match x, y with
  | Ok (a, w1), Ok (b, w2) => a = b /\ scrape_akin w1 w2
  | Raise e1, Raise e2 => e1 = e2
  | OutOfFuel, OutOfFuel => True
  | _, _ => False
  end.

Definition scrape_blind {A : Type} (m : Scrape.M A) : Prop :=
  forall w1 w2, scrape_akin w1 w2 -> scrape_alike (m w1) (m w2).

(** ** Sound games *)

(** A base is empty or taken. *)
Definition bit (z : Z) : Prop := z = 0 \/ z = 1.

Definition bits3 (b : list Z) : Prop :=
  exists b1 b2 b3, b = [b1; b2; b3] /\ bit b1 /\ bit b2 /\ bit b3.

(** The range of numpy's 64-bit integers. *)
Definition is_int64 (z : Z) : Prop := - 2 ^ 63 <= z < 2 ^ 63.

(** A game of [baseball_sim_with_scrape.py] between two at-bats: three
    bases, each empty or taken, a score of two 64-bit integers, fewer
    than three outs, and the away side (0) or the home side (1) at bat. *)
Definition scrape_sound (g : Scrape.Game) : Prop :=
  bits3 (Scrape.bases g) /\
  (exists s0 s1, Scrape.score g = [s0; s1] /\ is_int64 s0 /\ is_int64 s1) /\
  0 <= Scrape.outs g < 3 /\
  bit (Scrape.away_or_home g).

(** The same for [baseball_sim.py], where the lists may be the default
    ones of the process, and with both batting orders at one of their
    nine slots. *)
Definition sim_sound (g : Sim.Game) (w : Sim.World) : Prop :=
  bits3 (Sim.look (Sim.dflt_bases w) (Sim.bases g)) /\
  (exists s0 s1, Sim.look (Sim.dflt_score w) (Sim.score g) = [s0; s1]) /\
  (exists c0 c1,
      Sim.look (Sim.dflt_current_player w) (Sim.current_player g) = [c0; c1] /\
      0 <= c0 < 9 /\ 0 <= c1 < 9) /\
  0 <= Sim.outs g < 3 /\
  bit (Sim.away_or_home g).



(** The default list of the bases once [walker] of [baseball_sim.py] has
    gone through the bases [r] of a game: [self.bases.append(0)] and the
    loop work on the list itself, which is the default list [d] when the
    game still refers to it, and [self.bases = self.bases[:3]] takes the
    game off it afterwards. *)
Definition walked_through (r : Sim.ref) (d b' : list Z) : list Z :=
  match r with
  | Sim.Default => b'
  | Sim.Own _ => d
  end.

(** The at-bats that the batters of a team, and of all teams, have on
    their histories. *)
Definition at_bats_of (t : Team) : nat :=
  list_sum (map (fun p => List.length (stats p)) (players t)).

Definition recorded (ts : list Team) : nat := list_sum (map at_bats_of ts).

(** The distributions of the batters, team by team. *)
Definition lineups (ts : list Team) : list (list Series) :=
  map (fun t => map probs (players t)) ts.

(** A game of the log that one side has won. *)
Definition decided (res : GameResult) : Prop :=
  exists s0 s1,
    final_score res = [s0; s1] /\ s0 <> s1 /\
    winner res = (if s0 <? s1 then 1 else 0).

(** * Properties *)

(** ** Computations that return *)

Lemma rbind_ok {A B : Type} (m : result A) (k : A -> result B) (b : B) :
  rbind m k = Ok b -> exists a, m = Ok a /\ k a = Ok b.
Proof. destruct m; cbn; intros H; try discriminate H. eauto. Qed.

Lemma bind_ok {S A B : Type} (m : St S A) (k : A -> St S B) (s s' : S) (b : B) :
  bind m k s = Ok (b, s') -> exists a s1, m s = Ok (a, s1) /\ k a s1 = Ok (b, s').
Proof.
  unfold bind. destruct (m s) as [[a s1] | |]; intros H; try discriminate H. eauto.
Qed.

Lemma lift_ok {S A : Type} (r : result A) (s s' : S) (a : A) :
  lift r s = Ok (a, s') -> r = Ok a /\ s' = s.
Proof.
  unfold lift. destruct r; cbn; intros H; try discriminate H.
  injection H as -> ->. split; reflexivity.
Qed.

Lemma gets_ok {S A : Type} (f : S -> A) (s s' : S) (a : A) :
  gets f s = Ok (a, s') -> a = f s /\ s' = s.
Proof. unfold gets. intros [= <- <-]. split; reflexivity. Qed.

Lemma ret_ok {S A : Type} (x a : A) (s s' : S) :
  ret x s = Ok (a, s') -> a = x /\ s' = s.
Proof. unfold ret. intros [= <- <-]. split; reflexivity. Qed.

(** Taking apart a computation that has returned. *)
Ltac unroll :=
  repeat match goal with
    | H : bind _ _ _ = Ok _ |- _ =>
        let a := fresh "a" in let s := fresh "w" in let H1 := fresh "H" in
        apply bind_ok in H; destruct H as (a & s & H1 & H); cbv beta in H
    | H : rbind _ _ = Ok _ |- _ =>
        let a := fresh "a" in let H1 := fresh "H" in
        apply rbind_ok in H; destruct H as (a & H1 & H); cbv beta in H
    | H : lift _ _ = Ok _ |- _ => apply lift_ok in H; destruct H as [H ->]
    | H : gets _ _ = Ok _ |- _ => apply gets_ok in H; destruct H as [-> ->]
    | H : ret _ _ = Ok _ |- _ => apply ret_ok in H; destruct H as [-> ->]
    | H : Ok _ = Ok _ |- _ => injection H as H; subst
    end.

(** ** Lists of two and of three *)

Lemma py_get_0 {A : Type} (a : A) (l : list A) : py_get (a :: l) 0 = Ok a.
Proof.
  unfold py_get, py_index. cbn [List.length].
  replace (0 <? Z.of_nat (S (List.length l))) with true by (symmetry; apply Z.ltb_lt; lia).
  reflexivity.
Qed.

Lemma py_get_1 {A : Type} (a b : A) (l : list A) : py_get (a :: b :: l) 1 = Ok b.
Proof.
  unfold py_get, py_index. cbn [List.length].
  replace (1 <? Z.of_nat (S (S (List.length l)))) with true by (symmetry; apply Z.ltb_lt; lia).
  reflexivity.
Qed.

Lemma py_set_0 {A : Type} (a v : A) (l : list A) : py_set (a :: l) 0 v = Ok (v :: l).
Proof.
  unfold py_set, py_index. cbn [List.length].
  replace (0 <? Z.of_nat (S (List.length l))) with true by (symmetry; apply Z.ltb_lt; lia).
  reflexivity.
Qed.

Lemma py_set_1 {A : Type} (a b v : A) (l : list A) :
  py_set (a :: b :: l) 1 v = Ok (a :: v :: l).
Proof.
  unfold py_set, py_index. cbn [List.length].
  replace (1 <? Z.of_nat (S (S (List.length l)))) with true by (symmetry; apply Z.ltb_lt; lia).
  reflexivity.
Qed.

(** ** The sampler *)

Lemma random_sample_unit (r : RandomState) :
  (0 <= fst (random_sample r) /\ fst (random_sample r) < 1)%Q.
Proof.
  unfold random_sample; cbn [fst].
  set (x := (stream r (pos r) mod 2 ^ 53)%N).
  assert (H : (x < 2 ^ 53)%N) by (apply N.mod_lt; discriminate).
  apply N2Z.inj_lt in H.
  pose proof (N2Z.is_nonneg x) as H0.
  change (Z.of_N (2 ^ 53)) with 9007199254740992 in H.
  unfold Qle, Qlt; cbn [Qnum Qden].
  change (Z.pos (2 ^ 53)) with 9007199254740992.
  lia.
Qed.

Lemma choice_certainly (label : string) (r : RandomState) :
  choice (certainly label) r = Ok (label, next r).
Proof.
  unfold choice, certainly.
  destruct (random_sample_unit r) as [_ Hlt].
  destruct (random_sample r) as [u r'] eqn:E.
  assert (r' = next r) by (unfold random_sample in E; injection E; intros; subst; reflexivity).
  subst r'. cbn [fst] in Hlt.
  cbn [values map snd Qsum fold_left existsb].
  destruct (Qlt_le_dec 1 0) as [H | _]; [discriminate H |].
  cbn [orb].
  destruct (Qlt_le_dec _ _) as [H | _]; [discriminate H |].
  cbn [searchsorted].
  destruct (Qlt_le_dec _ _) as [_ | H]; [reflexivity |].
  exfalso. apply (Qlt_not_le _ _ Hlt).
  unfold Qle in *. cbn in H |- *. lia.
Qed.

Lemma at_bat_certainly (label : string) (h : list string) (r : RandomState) :
  at_bat {| probs := certainly label; stats := h |} r
  = Ok (label, {| probs := certainly label; stats := h ++ [label] |}, next r).
Proof.
  unfold at_bat; cbn [probs stats]. rewrite choice_certainly. reflexivity.
Qed.

(** ** What an at-bat leaves alone *)

(** Adding runs touches the score and nothing else. *)
Lemma sim_add_runs_frame g runs w g1 w1 :
  Sim.add_runs g runs w = Ok (g1, w1) ->
  Sim.inning g1 = Sim.inning g /\ Sim.outs g1 = Sim.outs g /\
  Sim.away_or_home g1 = Sim.away_or_home g /\
  Sim.game_on g1 = Sim.game_on g /\
  Sim.current_player g1 = Sim.current_player g /\
  Sim.bases g1 = Sim.bases g /\
  Sim.dflt_current_player w1 = Sim.dflt_current_player w /\
  Sim.dflt_bases w1 = Sim.dflt_bases w /\
  Sim.teams w1 = Sim.teams w /\ Sim.rng w1 = Sim.rng w.
Proof.
  unfold Sim.add_runs, Sim.get_score, Sim.deref, Sim.mutate_score.
  intros H. unroll.
  destruct (Sim.score g); [injection H as <- <- | unroll];
    cbn; repeat split; reflexivity.
Qed.

(** The outcome of an at-bat leaves the inning, the side at bat, the
    flag and the batting orders as they were. *)
Lemma sim_resolve_frame res g w g1 w1 :
  Sim.resolve res g w = Ok (g1, w1) ->
  Sim.inning g1 = Sim.inning g /\
  Sim.away_or_home g1 = Sim.away_or_home g /\
  Sim.game_on g1 = Sim.game_on g /\
  Sim.current_player g1 = Sim.current_player g /\
  Sim.dflt_current_player w1 = Sim.dflt_current_player w /\
  Sim.teams w1 = Sim.teams w /\ Sim.rng w1 = Sim.rng w.
Proof.
  unfold Sim.resolve.
  destruct (String.eqb res "OUT").
  { intros H; unroll. cbn. repeat split; reflexivity. }
  destruct (String.eqb res "BB").
  - unfold Sim.walker, Sim.get_bases, Sim.deref, Sim.mutate_bases.
    intros H. unroll. apply sim_add_runs_frame in H. cbn in H.
    destruct (Sim.bases g); [injection H2 as <- <- | unroll];
      cbn in *; repeat split; apply H.
  - unfold Sim.hitter, Sim.get_bases, Sim.deref.
    intros H. unroll. apply sim_add_runs_frame in H. cbn in H.
    repeat split; apply H.
Qed.

Lemma scrape_resolve_frame res g g1 :
  Scrape.resolve res g = Ok g1 ->
  Scrape.inning g1 = Scrape.inning g /\
  Scrape.away_or_home g1 = Scrape.away_or_home g /\
  Scrape.game_on g1 = Scrape.game_on g /\
  Scrape.current_player g1 = Scrape.current_player g.
Proof.
  unfold Scrape.resolve, Scrape.walker, Scrape.hitter, Scrape.add_runs.
  destruct (String.eqb res "OUT"); [| destruct (String.eqb res "WALK")];
    intros H; unroll; cbn; repeat split; reflexivity.
Qed.

(** The score once [runs] are added for the side at bat. *)
Lemma sim_add_runs_ok g w s0 s1 runs :
  Sim.look (Sim.dflt_score w) (Sim.score g) = [s0; s1] ->
  Sim.away_or_home g = 0 \/ Sim.away_or_home g = 1 ->
  exists g' w',
    Sim.add_runs g runs w = Ok (g', w') /\
    Sim.look (Sim.dflt_score w') (Sim.score g')
    = (if Sim.away_or_home g =? 0 then [s0 + runs; s1] else [s0; s1 + runs]) /\
    Sim.bases g' = Sim.bases g /\ Sim.dflt_bases w' = Sim.dflt_bases w /\
    Sim.outs g' = Sim.outs g /\ Sim.inning g' = Sim.inning g /\
    Sim.away_or_home g' = Sim.away_or_home g /\ Sim.game_on g' = Sim.game_on g /\
    Sim.current_player g' = Sim.current_player g /\
    Sim.dflt_current_player w' = Sim.dflt_current_player w /\
    Sim.teams w' = Sim.teams w /\ Sim.rng w' = Sim.rng w.
Proof.
  destruct g as [i o side b sc on cp]; cbn [Sim.score Sim.away_or_home].
  intros Hs Hside.
  unfold Sim.add_runs, Sim.get_score, Sim.deref, Sim.mutate_score, bind, gets, lift, ret.
  cbn [Sim.score Sim.away_or_home]. rewrite Hs.
  destruct Hside as [-> | ->]; rewrite ?py_get_0, ?py_get_1; cbn [rbind];
    rewrite ?py_set_0, ?py_set_1; cbn [rbind];
    destruct sc as [| l]; cbn; do 2 eexists; repeat split; reflexivity.
Qed.

(** ** A walk *)

(** X18.  In [baseball_sim_with_scrape.py] a walk puts the batter on first
    and moves the forced runners only: the runner on second moves when first
    was taken, the runner on third when first and second were, and a run
    scores when the bases were loaded. *)
Lemma scrape_walker_forces (g : Scrape.Game) (b1 b2 b3 : bool) (s0 s1 : Z) :
  Scrape.bases g = [Z.b2z b1; Z.b2z b2; Z.b2z b3] ->
  Scrape.score g = [s0; s1] ->
  Scrape.away_or_home g = 0 \/ Scrape.away_or_home g = 1 ->
  exists g',
    Scrape.walker g = Ok g' /\
    Scrape.bases g' = [1; Z.b2z (b1 || b2); Z.b2z (b1 && b2 || b3)] /\
    Scrape.score g' =
      (if Scrape.away_or_home g =? 0
       then [Scrape.int64 (s0 + Z.b2z (b1 && b2 && b3)); s1]
       else [s0; Scrape.int64 (s1 + Z.b2z (b1 && b2 && b3))]) /\
    Scrape.outs g' = Scrape.outs g /\
    Scrape.away_or_home g' = Scrape.away_or_home g.
Proof.
  destruct g as [i o side b s on cp]; cbn [Scrape.bases Scrape.score
    Scrape.away_or_home Scrape.outs]; intros -> -> Hside.
  unfold Scrape.walker, Scrape.add_runs.
  destruct Hside as [-> | ->]; destruct b1, b2, b3;
    cbn -[Scrape.int64 Z.add]; eexists; repeat split; reflexivity.
Qed.

(** A walk with the bases loaded. *)
Lemma scrape_walker_forces_witness :
  exists g',
    Scrape.walker bases_loaded = Ok g' /\
    Scrape.bases g' = [1; 1; 1] /\
    Scrape.score g' = [Scrape.int64 (0 + 1); 0] /\
    Scrape.outs g' = Scrape.outs bases_loaded /\
    Scrape.away_or_home g' = Scrape.away_or_home bases_loaded.
Proof.
  exact (scrape_walker_forces bases_loaded true true true 0 0 eq_refl eq_refl
           (or_introl eq_refl)).
Defined.

(** In [baseball_sim.py] the outcome ['WALK'] moves nobody and scores
    nothing, wherever the runners are. *)
Lemma sim_walk_moves_nobody g w b1 b2 b3 s0 s1 :
  Sim.look (Sim.dflt_bases w) (Sim.bases g) = [b1; b2; b3] ->
  Sim.look (Sim.dflt_score w) (Sim.score g) = [s0; s1] ->
  Sim.away_or_home g = 0 \/ Sim.away_or_home g = 1 ->
  exists g' w',
    Sim.resolve "WALK" g w = Ok (g', w') /\
    Sim.look (Sim.dflt_bases w') (Sim.bases g') = [b1; b2; b3] /\
    Sim.look (Sim.dflt_score w') (Sim.score g') = [s0; s1] /\
    Sim.outs g' = Sim.outs g.
Proof.
  intros Hb Hs Hside.
  change (Sim.resolve "WALK" g) with (Sim.hitter "WALK" g).
  unfold Sim.hitter, Sim.get_bases, Sim.deref. unfold bind at 1. unfold gets.
  rewrite Hb. cbn [Sim.batted String.eqb Ascii.eqb Bool.eqb app firstn skipn].
  destruct (sim_add_runs_ok (Sim.set_bases g (Sim.Own [b1; b2; b3])) w s0 s1
              (sum []) Hs Hside)
    as (g' & w' & Hrun & Hs' & Hb' & _ & Ho & _).
  exists g', w'. split; [exact Hrun |].
  rewrite Hb', Hs', Ho. cbn [Sim.set_bases Sim.bases Sim.look Sim.away_or_home Sim.outs].
  change (sum []) with 0. rewrite !Z.add_0_r.
  destruct (Sim.away_or_home g =? 0); repeat split; reflexivity.
Qed.

(** C1, at the input where [baseball_sim.py] departs from it: the batter
    who draws the label ['WALK'] on a new game is sent to [hitter], which
    knows no such hit, and nobody stands on first after the at-bat. *)
Theorem sim_walk_leaves_first_base_empty (r : RandomState) :
  exists g' w',
    Sim.handle_at_bat Sim.Game_init (Sim.boot [walkers; walkers] r) = Ok (g', w') /\
    Sim.look (Sim.dflt_bases w') (Sim.bases g') = [0; 0; 0] /\
    Sim.look (Sim.dflt_score w') (Sim.score g') = [0; 0] /\
    Sim.outs g' = 0 /\
    Sim.game_on g' = true.
Proof.
  unfold Sim.handle_at_bat, draw, bind, Sim.get_current_player, Sim.deref, gets, lift.
  cbn -[at_bat Sim.settle].
  rewrite at_bat_certainly.
  cbn. do 2 eexists. repeat split; reflexivity.
Qed.

(** ** A new game *)

(** In [baseball_sim_with_scrape.py] a new game owns its lists: it starts
    in the top of the first inning, nobody out, nobody on, no score, with
    both batting orders at their head, whatever was played before. *)
Lemma scrape_new_game_is_fresh :
  Scrape.inning Scrape.Game_init = 1 /\
  Scrape.outs Scrape.Game_init = 0 /\
  Scrape.away_or_home Scrape.Game_init = 0 /\
  Scrape.bases Scrape.Game_init = [0; 0; 0] /\
  Scrape.score Scrape.Game_init = [0; 0] /\
  Scrape.current_player Scrape.Game_init = [0; 0].
Proof. repeat split. Qed.

(** C2, at the input where [baseball_sim.py] departs from it: a batch of
    two games in which the only run is a home run in the bottom of the
    ninth of the first game.  The first game ends 0-1.  The game built
    next refers to the same default lists: it begins at 0-1 with the home
    order at its ninth slot, and ends 0-1 after the top of the ninth, won
    by a side that never scored in it. *)
Theorem sim_second_game_inherits_the_first :
  match Sim.play_game 60 Sim.Game_init (Sim.boot duel one_homer) with
  | Ok (res, _, w) =>
      res = {| final_score := [0; 1]; winner := 1 |} /\
      Sim.look (Sim.dflt_score w) (Sim.score Sim.Game_init) = [0; 1] /\
      Sim.look (Sim.dflt_current_player w) (Sim.current_player Sim.Game_init) = [0; 8]
  | _ => False
  end /\
  value (Sim.simulate 60 2 (Sim.boot duel one_homer))
  = Ok [{| final_score := [0; 1]; winner := 1 |};
        {| final_score := [0; 1]; winner := 1 |}].
Proof. vm_compute. repeat split; reflexivity. Qed.

(** The same batch in [baseball_sim_with_scrape.py]: the first game ends
    0-1 all the same, and the second, which starts at 0-0, is still
    scoreless and on after a thousand at-bats. *)
Lemma scrape_second_game_starts_afresh :
  value (Scrape.simulate 60 1 {| Scrape.teams := duel; Scrape.rng := one_homer |})
  = Ok [{| final_score := [0; 1]; winner := 1 |}] /\
  value (Scrape.simulate 1000 2 {| Scrape.teams := duel; Scrape.rng := one_homer |})
  = OutOfFuel.
Proof. vm_compute. split; reflexivity. Qed.

(** ** The end of the game *)

(** The test of [baseball_sim.py] on a score of two items. *)
Lemma sim_game_over_spec g w s0 s1 :
  Sim.look (Sim.dflt_score w) (Sim.score g) = [s0; s1] ->
  Sim.game_over g w
  = Ok ((9 <=? Sim.inning g)
        && ((((3 <=? Sim.outs g) && (Sim.away_or_home g =? 0))
             || (Sim.away_or_home g =? 1)) && (s0 <? s1)
            || (3 <=? Sim.outs g) && (s1 <? s0)), w).
Proof.
  intros Hs.
  unfold Sim.game_over, Sim.get_score, Sim.deref, bind, gets, lift, ret.
  rewrite Hs, py_get_0, py_get_1.
  destruct (9 <=? Sim.inning g), (3 <=? Sim.outs g), (Sim.away_or_home g =? 0),
    (Sim.away_or_home g =? 1); cbn; try reflexivity;
    destruct (s0 <? s1); cbn; reflexivity.
Qed.

Lemma scrape_game_over_spec g s0 s1 :
  Scrape.score g = [s0; s1] ->
  Scrape.game_over g
  = Ok ((9 <=? Scrape.inning g)
        && (((3 <=? Scrape.outs g) && (Scrape.away_or_home g =? 0))
            || (Scrape.away_or_home g =? 1))
        && negb (s0 =? s1)).
Proof.
  intros Hs. unfold Scrape.game_over. rewrite Hs, py_get_0, py_get_1.
  destruct (_ && _); reflexivity.
Qed.

(** Changing sides leaves the flag as it is. *)
Lemma sim_change_sides_ok g w c0 c1 :
  Sim.look (Sim.dflt_current_player w) (Sim.current_player g) = [c0; c1] ->
  Sim.away_or_home g = 0 \/ Sim.away_or_home g = 1 ->
  exists g' w', Sim.change_sides g w = Ok (g', w') /\ Sim.game_on g' = Sim.game_on g.
Proof.
  intros Hc Hside. unfold Sim.change_sides.
  destruct (3 <=? Sim.outs g); [| do 2 eexists; split; reflexivity].
  unfold Sim.get_current_player, Sim.deref, Sim.mutate_current_player, bind, gets, lift, ret.
  destruct g as [i o side b s on cp]; cbn in Hc, Hside |- *.
  destruct Hside as [-> | ->]; cbn -[py_get py_set Z.modulo Z.add]; rewrite Hc;
    rewrite ?py_get_0, ?py_get_1; cbn -[py_get py_set Z.modulo Z.add];
    rewrite ?py_set_0, ?py_set_1; cbn -[py_get py_set Z.modulo Z.add];
    destruct cp; cbn -[Z.modulo Z.add]; do 2 eexists; split; reflexivity.
Qed.

Lemma scrape_change_sides_on g :
  Scrape.game_on (Scrape.change_sides g) = Scrape.game_on g.
Proof.
  unfold Scrape.change_sides.
  destruct (3 <=? Scrape.outs g); [destruct (Scrape.away_or_home g =? 1) |]; reflexivity.
Qed.

(** Deciding the comparisons of a test, case by case. *)
Ltac by_cases :=
  repeat match goal with
    | |- context [?a <=? ?b] => destruct (Z.leb_spec a b)
    | |- context [?a <? ?b] => destruct (Z.ltb_spec a b)
    | |- context [?a =? ?b] => destruct (Z.eqb_spec a b)
    end;
  cbn; first [reflexivity | lia].

(** C3, as amended.  Once the outcome of an at-bat is applied in an
    inning from the ninth on, the game is over when the home half is
    complete with the scores unequal, when the home side bats and leads,
    and when the away half is complete with the home side ahead; it goes
    on before the ninth, at a tie, and while the away side bats with fewer
    than three outs.  In [baseball_sim.py] it also goes on while the home
    side bats with fewer than three outs and does not lead. *)
Theorem game_ends_by_rule :
  (forall res g w g1 w1 s0 s1 c0 c1,
      Sim.game_on g = true ->
      Sim.away_or_home g = 0 \/ Sim.away_or_home g = 1 ->
      Sim.look (Sim.dflt_current_player w) (Sim.current_player g) = [c0; c1] ->
      Sim.resolve res g w = Ok (g1, w1) ->
      Sim.look (Sim.dflt_score w1) (Sim.score g1) = [s0; s1] ->
      exists g' w',
        Sim.settle res g w = Ok (g', w') /\
        end_rule (Sim.inning g) (Sim.away_or_home g) (Sim.outs g1) s0 s1
          (Sim.game_on g') /\
        (Sim.away_or_home g = 1 -> Sim.outs g1 < 3 -> s1 <= s0 ->
         Sim.game_on g' = true)) /\
  (forall res g g1 s0 s1,
      Scrape.game_on g = true ->
      Scrape.resolve res g = Ok g1 ->
      Scrape.score g1 = [s0; s1] ->
      exists g',
        Scrape.settle res g = Ok g' /\
        end_rule (Scrape.inning g) (Scrape.away_or_home g) (Scrape.outs g1) s0 s1
          (Scrape.game_on g')).
Proof.
  split.
  - intros res g w g1 w1 s0 s1 c0 c1 Hon Hside Hcp Hres Hs.
    destruct (sim_resolve_frame _ _ _ _ _ Hres) as (Hi & Ha & Hg & Hc & Hd & _).
    pose proof (sim_game_over_spec g1 w1 s0 s1 Hs) as Hover.
    rewrite Hi, Ha in Hover.
    set (b := (9 <=? Sim.inning g) && _) in Hover.
    destruct (sim_change_sides_ok
                (if b then Sim.set_game_on g1 false else g1) w1 c0 c1)
      as (g' & w' & Hch & Hon').
    { destruct b; cbn; rewrite Hc, Hd; exact Hcp. }
    { destruct b; cbn; rewrite Ha; exact Hside. }
    exists g', w'. split.
    { unfold Sim.settle, bind. rewrite Hres, Hover. exact Hch. }
    assert (Hb : Sim.game_on g' = negb b).
    { rewrite Hon'. destruct b; cbn; [reflexivity | congruence]. }
    rewrite Hb. subst b. unfold end_rule.
    repeat split; intros; by_cases.
  - intros res g g1 s0 s1 Hon Hres Hs.
    destruct (scrape_resolve_frame _ _ _ Hres) as (Hi & Ha & Hg & _).
    pose proof (scrape_game_over_spec g1 s0 s1 Hs) as Hover.
    rewrite Hi, Ha in Hover.
    set (b := (9 <=? Scrape.inning g) && _ && _) in Hover.
    eexists. split.
    { unfold Scrape.settle. rewrite Hres. cbn [rbind]. rewrite Hover. reflexivity. }
    rewrite scrape_change_sides_on.
    assert (Hb : Scrape.game_on (if b then Scrape.set_game_on g1 false else g1) = negb b).
    { destruct b; cbn; [reflexivity | congruence]. }
    rewrite Hb. subst b. unfold end_rule.
    repeat split; intros; by_cases.
Qed.

(** The amended rule at work on a walk-off home run: the bottom of the
    ninth, three all, nobody out. *)
Lemma game_ends_by_rule_witness :
  exists g' w',
    Sim.settle "HR" bottom_of_ninth (Sim.boot duel zeros) = Ok (g', w') /\
    end_rule 9 1 0 3 4 (Sim.game_on g') /\
    (1 = 1 -> 0 < 3 -> 4 <= 3 -> Sim.game_on g' = true).
Proof.
  apply (proj1 game_ends_by_rule "HR" bottom_of_ninth (Sim.boot duel zeros)
           (Sim.set_score bottom_of_ninth (Sim.Own [3; 4])) (Sim.boot duel zeros)
           3 4 0 0).
  - reflexivity.
  - right; reflexivity.
  - reflexivity.
  - reflexivity.
  - reflexivity.
Defined.

(** C3 as it was stated fails on [baseball_sim.py]: a home run by the
    first home batter and outs otherwise bring the game to the top of the
    ninth at 0-1 with two out, and the third out of that away half ends
    the game. *)
Lemma sim_game_ends_after_the_away_half :
  match Sim.at_bats 51 Sim.Game_init (Sim.boot duel early_homer) with
  | Ok (g, w) =>
      Sim.inning g = 9 /\ Sim.away_or_home g = 0 /\ Sim.outs g = 2 /\
      Sim.game_on g = true /\
      Sim.look (Sim.dflt_score w) (Sim.score g) = [0; 1] /\
      match Sim.handle_at_bat g w with
      | Ok (g', _) => Sim.game_on g' = false
      | _ => False
      end
  | _ => False
  end.
Proof. vm_compute. repeat split; reflexivity. Qed.

(** ** A single *)

(** C4, in both files.  A single puts the batter on first.  In
    [baseball_sim_with_scrape.py] every runner moves up one base, so that
    the runner from third, and no other, scores, as the claim has it.
    [baseball_sim.py] departs from it: every runner moves up two bases,
    second is left empty, the runner from first stands on third, and the
    runners from second and third score. *)
Theorem single_moves_the_runners :
  (forall g (b1 b2 b3 : bool) s0 s1,
      Scrape.bases g = [Z.b2z b1; Z.b2z b2; Z.b2z b3] ->
      Scrape.score g = [s0; s1] ->
      Scrape.away_or_home g = 0 \/ Scrape.away_or_home g = 1 ->
      exists g',
        Scrape.hitter "1B" g = Ok g' /\
        Scrape.bases g' = [1; Z.b2z b1; Z.b2z b2] /\
        Scrape.score g'
        = (if Scrape.away_or_home g =? 0
           then [Scrape.int64 (s0 + Z.b2z b3); s1]
           else [s0; Scrape.int64 (s1 + Z.b2z b3)]) /\
        Scrape.outs g' = Scrape.outs g) /\
  (forall g w (b1 b2 b3 : bool) s0 s1,
      Sim.look (Sim.dflt_bases w) (Sim.bases g) = [Z.b2z b1; Z.b2z b2; Z.b2z b3] ->
      Sim.look (Sim.dflt_score w) (Sim.score g) = [s0; s1] ->
      Sim.away_or_home g = 0 \/ Sim.away_or_home g = 1 ->
      exists g' w',
        Sim.hitter "1B" g w = Ok (g', w') /\
        Sim.look (Sim.dflt_bases w') (Sim.bases g') = [1; 0; Z.b2z b1] /\
        Sim.look (Sim.dflt_score w') (Sim.score g')
        = (if Sim.away_or_home g =? 0
           then [s0 + (Z.b2z b2 + Z.b2z b3); s1]
           else [s0; s1 + (Z.b2z b2 + Z.b2z b3)]) /\
        Sim.outs g' = Sim.outs g).
Proof.
  split.
  - intros [i o side b s on cp] b1 b2 b3 s0 s1; cbn [Scrape.bases Scrape.score
      Scrape.away_or_home Scrape.outs]; intros -> -> Hside.
    unfold Scrape.hitter, Scrape.add_runs.
    destruct Hside as [-> | ->]; destruct b1, b2, b3;
      cbn -[Scrape.int64 Z.add]; eexists; repeat split; reflexivity.
  - intros g w b1 b2 b3 s0 s1 Hb Hs Hside.
    unfold Sim.hitter, Sim.get_bases, Sim.deref. unfold bind at 1. unfold gets.
    rewrite Hb. cbn [Sim.batted String.eqb Ascii.eqb Bool.eqb app firstn skipn].
    destruct (sim_add_runs_ok
                (Sim.set_bases g (Sim.Own [1; 0; Z.b2z b1])) w s0 s1
                (sum [Z.b2z b2; Z.b2z b3]) Hs Hside)
      as (g' & w' & Hrun & Hs' & Hb' & _ & Ho & _).
    exists g', w'. split; [exact Hrun |].
    rewrite Hb', Hs', Ho. cbn [Sim.set_bases Sim.bases Sim.look Sim.away_or_home Sim.outs].
    unfold sum; cbn [fold_left]. rewrite Z.add_0_l.
    repeat split; reflexivity.
Qed.

(** A single with a runner on second in [baseball_sim.py]. *)
Lemma single_moves_the_runners_witness :
  exists g' w',
    Sim.hitter "1B" runner_on_second (Sim.boot duel zeros) = Ok (g', w') /\
    Sim.look (Sim.dflt_bases w') (Sim.bases g') = [1; 0; 0] /\
    Sim.look (Sim.dflt_score w') (Sim.score g') = [0 + (1 + 0); 0] /\
    Sim.outs g' = 0.
Proof.
  apply (proj2 single_moves_the_runners runner_on_second (Sim.boot duel zeros)
           false true false 0 0).
  - reflexivity.
  - reflexivity.
  - left; reflexivity.
Defined.

(** In [baseball_sim.py], with a runner on second and nobody else on, a
    single scores a run and leaves the batter alone on base. *)
Lemma sim_single_scores_the_runner_on_second :
  match Sim.hitter "1B" runner_on_second (Sim.boot duel zeros) with
  | Ok (g', w') =>
      Sim.look (Sim.dflt_bases w') (Sim.bases g') = [1; 0; 0] /\
      Sim.look (Sim.dflt_score w') (Sim.score g') = [1; 0]
  | _ => False
  end.
Proof. vm_compute. split; reflexivity. Qed.

(** ** Batters who always homer *)

Lemma all_sluggers_head ts :
  all_sluggers ts ->
  exists p ps rec rest,
    ts = {| players := p :: ps; record := rec |} :: rest /\ probs p = certainly "HR".
Proof.
  intros [Hlen Hall].
  destruct ts as [| [[| p ps] rec] rest]; try discriminate Hlen.
  - inversion Hall as [| ? ? [Hn _] _]. discriminate Hn.
  - inversion Hall as [| ? ? [_ Hp] _]. inversion Hp; subst.
    do 4 eexists. split; [reflexivity | assumption].
Qed.

Lemma repeat_snoc {A} (x : A) n : repeat x n ++ [x] = repeat x (S n).
Proof. induction n; cbn; [reflexivity | rewrite IHn; reflexivity]. Qed.

(** The batter at the head of the away order, when his outcome is
    certain. *)
Lemma draw_head {S : Type} (get_teams : S -> list Team) (get_rng : S -> RandomState)
    (put : list Team -> RandomState -> S -> S) (s : S)
    (label : string) (h : list string) (ps : list Player) (rec : list Z)
    (rest : list Team) :
  get_teams s = {| players := {| probs := certainly label; stats := h |} :: ps;
                   record := rec |} :: rest ->
  draw get_teams get_rng put 0 0 s
  = Ok (label,
        put ({| players := {| probs := certainly label; stats := h ++ [label] |} :: ps;
                record := rec |} :: rest) (next (get_rng s)) s).
Proof.
  intros Ht. unfold draw. rewrite Ht, py_get_0. cbn [rbind players record].
  rewrite py_get_0. cbn [rbind]. rewrite at_bat_certainly. cbn [rbind].
  rewrite !py_set_0. reflexivity.
Qed.

Lemma sim_settle_home_run g w a h :
  Sim.inning g < 9 -> Sim.outs g < 3 ->
  Sim.away_or_home g = 0 \/ Sim.away_or_home g = 1 ->
  Sim.look (Sim.dflt_bases w) (Sim.bases g) = [0; 0; 0] ->
  Sim.look (Sim.dflt_score w) (Sim.score g) = [a; h] ->
  exists g' w',
    Sim.settle "HR" g w = Ok (g', w') /\
    Sim.inning g' = Sim.inning g /\ Sim.outs g' = Sim.outs g /\
    Sim.away_or_home g' = Sim.away_or_home g /\
    Sim.game_on g' = Sim.game_on g /\
    Sim.look (Sim.dflt_bases w') (Sim.bases g') = [0; 0; 0] /\
    Sim.look (Sim.dflt_score w') (Sim.score g')
    = (if Sim.away_or_home g =? 0 then [a + 1; h] else [a; h + 1]) /\
    Sim.current_player g' = Sim.current_player g /\
    Sim.dflt_current_player w' = Sim.dflt_current_player w /\
    Sim.teams w' = Sim.teams w /\ Sim.rng w' = Sim.rng w.
Proof.
  intros Hi Ho Hside Hb Hs.
  destruct (sim_add_runs_ok (Sim.set_bases g (Sim.Own [0; 0; 0])) w a h 1 Hs Hside)
    as (g1 & w1 & Hrun & Hs1 & Hb1 & Hdb & Ho1 & Hi1 & Ha1 & Hon1 & Hc1 & Hdc & Ht & Hr).
  cbn [Sim.set_bases Sim.bases Sim.outs Sim.inning Sim.away_or_home Sim.game_on
       Sim.current_player] in *.
  assert (Hhit : Sim.resolve "HR" g w = Ok (g1, w1)).
  { change (Sim.resolve "HR" g) with (Sim.hitter "HR" g).
    unfold Sim.hitter, Sim.get_bases, Sim.deref, bind, gets. rewrite Hb. exact Hrun. }
  exists g1, w1. split.
  { assert (Hs2 : exists x y, Sim.look (Sim.dflt_score w1) (Sim.score g1) = [x; y]).
    { rewrite Hs1. destruct (Sim.away_or_home g =? 0); eauto. }
    destruct Hs2 as (x & y & Hs2).
    unfold Sim.settle, bind. rewrite Hhit, (sim_game_over_spec g1 w1 _ _ Hs2).
    replace (9 <=? Sim.inning g1) with false by (symmetry; apply Z.leb_gt; lia).
    cbn [andb]. unfold Sim.change_sides.
    replace (3 <=? Sim.outs g1) with false by (symmetry; apply Z.leb_gt; lia).
    reflexivity. }
  rewrite Hb1. cbn [Sim.look]. repeat split; assumption.
Qed.

Lemma sim_slugfest_step ts r n g w :
  all_sluggers ts ->
  sim_slugfest ts r n g w ->
  exists g' w', Sim.handle_at_bat g w = Ok (g', w') /\ sim_slugfest ts r (S n) g' w'.
Proof.
  intros Hts (Hi & Ho & Ha & Hon & Hb & Hs & Hc & Ht & Hr).
  destruct (all_sluggers_head ts Hts) as ([pr st] & ps & rec & rest & -> & Hp).
  cbn [probs credited stats] in *. subst pr.
  unfold Sim.handle_at_bat, Sim.get_current_player, Sim.deref.
  unfold bind at 1. unfold gets at 1. rewrite Hc.
  unfold bind at 1. rewrite Ha, py_get_0. cbn [lift rbind].
  unfold bind at 1. rewrite (draw_head _ _ _ _ _ _ _ _ _ Ht).
  set (w1 := Sim.put_teams_rng _ _ w).
  destruct (sim_settle_home_run g w1 (Z.of_nat n) 0) as (g' & w' & Hset & H).
  { rewrite Hi; lia. }
  { rewrite Ho; lia. }
  { left; exact Ha. }
  { exact Hb. }
  { exact Hs. }
  exists g', w'. split; [exact Hset |].
  destruct H as (Hi' & Ho' & Ha' & Hon' & Hb' & Hs' & Hc' & Hdc' & Ht' & Hr').
  rewrite Ha in Hs'. cbn in Hs'.
  unfold sim_slugfest.
  rewrite Hi', Ho', Ha', Hon', Hb', Hs', Hc', Hdc', Ht', Hr'.
  subst w1; cbn [Sim.put_teams_rng Sim.dflt_current_player Sim.teams Sim.rng credited stats probs].
  rewrite Hr, <- app_assoc, repeat_snoc.
  repeat split; try assumption.
  f_equal. lia.
Qed.

Lemma sim_slugfest_start ts r :
  sim_slugfest ts r 0 Sim.Game_init (Sim.boot ts r).
Proof.
  unfold sim_slugfest, credited. cbn.
  destruct ts as [| [[| [pr st] ps] rec] rest]; cbn; rewrite ?app_nil_r;
    repeat split; reflexivity.
Qed.

Lemma sim_slugfest_at_bats ts r m n g w :
  all_sluggers ts ->
  sim_slugfest ts r n g w ->
  exists g' w', Sim.at_bats m g w = Ok (g', w') /\ sim_slugfest ts r (m + n) g' w'.
Proof.
  intros Hts. revert n g w.
  induction m as [| m IH]; intros n g w Hinv.
  - exists g, w. split; [reflexivity | exact Hinv].
  - destruct (sim_slugfest_step ts r n g w Hts Hinv) as (g1 & w1 & Hstep & Hinv1).
    destruct (IH (S n) g1 w1 Hinv1) as (g' & w' & Hrest & Hinv').
    exists g', w'. split.
    + cbn [Sim.at_bats]. unfold bind. rewrite Hstep. exact Hrest.
    + replace (S m + n)%nat with (m + S n)%nat by lia. exact Hinv'.
Qed.

Lemma sim_slugfest_never_ends ts r fuel n g w :
  all_sluggers ts ->
  sim_slugfest ts r n g w ->
  Sim.play fuel g w = OutOfFuel.
Proof.
  intros Hts. revert n g w.
  induction fuel as [| fuel IH]; intros n g w Hinv;
    pose proof Hinv as (_ & _ & _ & Hon & _); cbn [Sim.play]; rewrite Hon.
  - reflexivity.
  - destruct (sim_slugfest_step ts r n g w Hts Hinv) as (g1 & w1 & Hstep & Hinv1).
    unfold bind. rewrite Hstep. exact (IH _ _ _ Hinv1).
Qed.

Lemma int64_add_l x y : Scrape.int64 (Scrape.int64 x + y) = Scrape.int64 (x + y).
Proof.
  unfold Scrape.int64.
  replace ((x + 2 ^ 63) mod 2 ^ 64 - 2 ^ 63 + y + 2 ^ 63)
    with ((x + 2 ^ 63) mod 2 ^ 64 + y) by lia.
  rewrite Zplus_mod_idemp_l. f_equal. f_equal. lia.
Qed.

Lemma scrape_slugfest_step ts r n g w :
  all_sluggers ts ->
  scrape_slugfest ts r n g w ->
  exists g' w', Scrape.handle_at_bat g w = Ok (g', w') /\ scrape_slugfest ts r (S n) g' w'.
Proof.
  intros Hts (Hi & Ho & Ha & Hon & Hb & Hs & Hc & Ht & Hr).
  destruct (all_sluggers_head ts Hts) as ([pr st] & ps & rec & rest & -> & Hp).
  cbn [probs credited stats] in *. subst pr.
  destruct g as [i o side b s on cp].
  cbn [Scrape.inning Scrape.outs Scrape.away_or_home Scrape.game_on Scrape.bases
       Scrape.score Scrape.current_player] in *.
  subst i o side b s on cp.
  unfold Scrape.handle_at_bat.
  unfold bind at 1. cbn [Scrape.current_player Scrape.away_or_home].
  rewrite py_get_0. cbn [lift rbind].
  unfold bind at 1. rewrite (draw_head _ _ _ _ _ _ _ _ _ Ht).
  do 2 eexists. split.
  - cbn -[Scrape.int64 Z.add Z.of_nat]. reflexivity.
  - unfold scrape_slugfest.
    cbn -[Scrape.int64 Z.add Z.of_nat Nat.iter].
    rewrite Hr, <- app_assoc, repeat_snoc.
    repeat split.
    f_equal. change (Scrape.int64 (0 + 1)) with 1.
    rewrite int64_add_l. f_equal. lia.
Qed.

Lemma scrape_slugfest_start ts r :
  scrape_slugfest ts r 0 Scrape.Game_init {| Scrape.teams := ts; Scrape.rng := r |}.
Proof.
  unfold scrape_slugfest, credited. cbn.
  destruct ts as [| [[| [pr st] ps] rec] rest]; cbn; rewrite ?app_nil_r;
    repeat split; reflexivity.
Qed.

Lemma scrape_slugfest_at_bats ts r m n g w :
  all_sluggers ts ->
  scrape_slugfest ts r n g w ->
  exists g' w', Scrape.at_bats m g w = Ok (g', w') /\ scrape_slugfest ts r (m + n) g' w'.
Proof.
  intros Hts. revert n g w.
  induction m as [| m IH]; intros n g w Hinv.
  - exists g, w. split; [reflexivity | exact Hinv].
  - destruct (scrape_slugfest_step ts r n g w Hts Hinv) as (g1 & w1 & Hstep & Hinv1).
    destruct (IH (S n) g1 w1 Hinv1) as (g' & w' & Hrest & Hinv').
    exists g', w'. split.
    + cbn [Scrape.at_bats]. unfold bind. rewrite Hstep. exact Hrest.
    + replace (S m + n)%nat with (m + S n)%nat by lia. exact Hinv'.
Qed.

Lemma scrape_slugfest_never_ends ts r fuel n g w :
  all_sluggers ts ->
  scrape_slugfest ts r n g w ->
  Scrape.play fuel g w = OutOfFuel.
Proof.
  intros Hts. revert n g w.
  induction fuel as [| fuel IH]; intros n g w Hinv;
    pose proof Hinv as (_ & _ & _ & Hon & _); cbn [Scrape.play]; rewrite Hon.
  - reflexivity.
  - destruct (scrape_slugfest_step ts r n g w Hts Hinv) as (g1 & w1 & Hstep & Hinv1).
    unfold bind. rewrite Hstep. exact (IH _ _ _ Hinv1).
Qed.

Lemma sluggers_all_sluggers : all_sluggers [sluggers; sluggers].
Proof. split; [reflexivity |]. repeat constructor. Qed.

(** C9, as amended.  When every batter of both rosters has the
    distribution [{'HR': 1.0}] the game does not end: no out is ever made,
    so after any number [n] of at-bats the game is still on in the top of
    the first inning, the away side having scored [n] runs, and
    [play_game] is out of fuel whatever fuel it is given. *)
Theorem slugfest_never_ends (ts : list Team) (r : RandomState) :
  all_sluggers ts ->
  (forall fuel, Sim.play_game fuel Sim.Game_init (Sim.boot ts r) = OutOfFuel) /\
  (forall n, exists g w,
      Sim.at_bats n Sim.Game_init (Sim.boot ts r) = Ok (g, w) /\
      Sim.game_on g = true /\ Sim.inning g = 1 /\ Sim.away_or_home g = 0 /\
      Sim.outs g = 0 /\
      Sim.look (Sim.dflt_score w) (Sim.score g) = [Z.of_nat n; 0]) /\
  (forall fuel,
      Scrape.play_game fuel Scrape.Game_init {| Scrape.teams := ts; Scrape.rng := r |}
      = OutOfFuel) /\
  (forall n, exists g w,
      Scrape.at_bats n Scrape.Game_init {| Scrape.teams := ts; Scrape.rng := r |}
      = Ok (g, w) /\
      Scrape.game_on g = true /\ Scrape.inning g = 1 /\ Scrape.away_or_home g = 0 /\
      Scrape.outs g = 0 /\
      Scrape.score g = [Scrape.int64 (Z.of_nat n); 0]).
Proof.
  intros Hts. repeat split.
  - intros fuel. unfold Sim.play_game, bind.
    rewrite (sim_slugfest_never_ends ts r fuel 0 _ _ Hts (sim_slugfest_start ts r)).
    reflexivity.
  - intros n.
    destruct (sim_slugfest_at_bats ts r n 0 _ _ Hts (sim_slugfest_start ts r))
      as (g & w & Hrun & Hi & Ho & Ha & Hon & _ & Hs & _).
    rewrite Nat.add_0_r in Hs. exists g, w. repeat split; assumption.
  - intros fuel. unfold Scrape.play_game, bind.
    rewrite (scrape_slugfest_never_ends ts r fuel 0 _ _ Hts (scrape_slugfest_start ts r)).
    reflexivity.
  - intros n.
    destruct (scrape_slugfest_at_bats ts r n 0 _ _ Hts (scrape_slugfest_start ts r))
      as (g & w & Hrun & Hi & Ho & Ha & Hon & _ & Hs & _).
    rewrite Nat.add_0_r in Hs. exists g, w. repeat split; assumption.
Qed.

(** The amended claim on two rosters of nine sluggers. *)
Lemma slugfest_never_ends_witness :
  all_sluggers [sluggers; sluggers] /\
  forall fuel,
    Sim.play_game fuel Sim.Game_init (Sim.boot [sluggers; sluggers] zeros) = OutOfFuel.
Proof.
  split.
  - split; [reflexivity |]. repeat constructor.
  - apply (slugfest_never_ends [sluggers; sluggers] zeros).
    split; [reflexivity |]. repeat constructor.
Defined.

(** C9 as it was stated fails: with two rosters of nine sluggers no fuel
    lets [play_game] come back with a result. *)
Lemma sim_slugfest_has_no_result :
  ~ exists fuel x,
      Sim.play_game fuel Sim.Game_init (Sim.boot [sluggers; sluggers] zeros) = Ok x.
Proof.
  intros (fuel & x & H).
  unfold Sim.play_game, bind in H.
  rewrite (sim_slugfest_never_ends [sluggers; sluggers] zeros fuel 0 _ _
             sluggers_all_sluggers (sim_slugfest_start _ _)) in H.
  discriminate H.
Qed.

(** ** The batting order *)

(** C5, at an input where both files depart from it: nine at-bats in a
    row on a new game between two rosters of sluggers.  The batting order
    of the side at bat is at its head after them as before, and all nine
    at-bats went to the batter in the first slot. *)
Theorem nine_at_bats_by_one_batter (r : RandomState) :
  (exists g w,
      Sim.at_bats 9 Sim.Game_init (Sim.boot [sluggers; sluggers] r) = Ok (g, w) /\
      Sim.look (Sim.dflt_current_player w) (Sim.current_player g) = [0; 0] /\
      map (fun t => map (fun p => List.length (stats p)) (players t)) (Sim.teams w)
      = [[9; 0; 0; 0; 0; 0; 0; 0; 0]; [0; 0; 0; 0; 0; 0; 0; 0; 0]]%nat) /\
  (exists g w,
      Scrape.at_bats 9 Scrape.Game_init
        {| Scrape.teams := [sluggers; sluggers]; Scrape.rng := r |} = Ok (g, w) /\
      Scrape.current_player g = [0; 0] /\
      map (fun t => map (fun p => List.length (stats p)) (players t)) (Scrape.teams w)
      = [[9; 0; 0; 0; 0; 0; 0; 0; 0]; [0; 0; 0; 0; 0; 0; 0; 0; 0]]%nat).
Proof.
  split.
  - destruct (sim_slugfest_at_bats [sluggers; sluggers] r 9 0 _ _
                sluggers_all_sluggers (sim_slugfest_start _ _))
      as (g & w & Hrun & _ & _ & _ & _ & _ & _ & Hc & Ht & _).
    exists g, w. rewrite Ht. repeat split; assumption.
  - destruct (scrape_slugfest_at_bats [sluggers; sluggers] r 9 0 _ _
                sluggers_all_sluggers (scrape_slugfest_start _ _))
      as (g & w & Hrun & _ & _ & _ & _ & _ & _ & Hc & Ht & _).
    exists g, w. rewrite Ht. repeat split; assumption.
Qed.

(** X20.  In [baseball_sim_with_scrape.py] no at-bat moves a batting
    order: whatever its outcome, both orders are where they were. *)
Lemma scrape_order_never_moves g w g' w' :
  Scrape.handle_at_bat g w = Ok (g', w') ->
  Scrape.current_player g' = Scrape.current_player g.
Proof.
  unfold Scrape.handle_at_bat, Scrape.settle. intros H. unroll.
  apply scrape_resolve_frame in H2. destruct H2 as (_ & _ & _ & Hc).
  rewrite <- Hc. unfold Scrape.change_sides.
  destruct a2; destruct (3 <=? _); try destruct (_ =? 1); reflexivity.
Qed.

(** The first at-bat of a game. *)
Lemma scrape_order_never_moves_witness :
  match Scrape.handle_at_bat Scrape.Game_init
          {| Scrape.teams := duel; Scrape.rng := one_homer |} with
  | Ok (g', _) => Scrape.current_player g' = Scrape.current_player Scrape.Game_init
  | _ => False
  end.
Proof.
  destruct (Scrape.handle_at_bat Scrape.Game_init
              {| Scrape.teams := duel; Scrape.rng := one_homer |})
    as [[g' w'] | e |] eqn:E.
  - exact (scrape_order_never_moves _ _ g' w' E).
  - vm_compute in E. discriminate E.
  - vm_compute in E. discriminate E.
Defined.

(** ** A home run *)

(** In [baseball_sim.py] a home run clears the bases and scores the
    batter and every runner. *)
Lemma sim_home_run_scores_everyone g w (b1 b2 b3 : bool) s0 s1 :
  Sim.look (Sim.dflt_bases w) (Sim.bases g) = [Z.b2z b1; Z.b2z b2; Z.b2z b3] ->
  Sim.look (Sim.dflt_score w) (Sim.score g) = [s0; s1] ->
  Sim.away_or_home g = 0 \/ Sim.away_or_home g = 1 ->
  exists g' w',
    Sim.hitter "HR" g w = Ok (g', w') /\
    Sim.look (Sim.dflt_bases w') (Sim.bases g') = [0; 0; 0] /\
    Sim.look (Sim.dflt_score w') (Sim.score g')
    = (if Sim.away_or_home g =? 0
       then [s0 + (1 + (Z.b2z b1 + Z.b2z b2 + Z.b2z b3)); s1]
       else [s0; s1 + (1 + (Z.b2z b1 + Z.b2z b2 + Z.b2z b3))]).
Proof.
  intros Hb Hs Hside.
  unfold Sim.hitter, Sim.get_bases, Sim.deref. unfold bind at 1. unfold gets.
  rewrite Hb. cbn [Sim.batted String.eqb Ascii.eqb Bool.eqb app firstn skipn].
  destruct (sim_add_runs_ok
              (Sim.set_bases g (Sim.Own [0; 0; 0])) w s0 s1
              (sum [1; Z.b2z b1; Z.b2z b2; Z.b2z b3]) Hs Hside)
    as (g' & w' & Hrun & Hs' & Hb' & _).
  exists g', w'. split; [exact Hrun |].
  rewrite Hb', Hs'. cbn [Sim.set_bases Sim.bases Sim.look Sim.away_or_home].
  replace (sum [1; Z.b2z b1; Z.b2z b2; Z.b2z b3])
    with (1 + (Z.b2z b1 + Z.b2z b2 + Z.b2z b3)) by (unfold sum; cbn [fold_left]; lia).
  split; reflexivity.
Qed.

(** C6, where [baseball_sim_with_scrape.py] departs from it: the array
    that [hitter] builds for a home run is cut to four items before the
    runs are counted, so the runners are dropped and the batter alone
    scores, whoever was on base. *)
Theorem scrape_home_run_scores_the_batter_only g (b1 b2 b3 : bool) s0 s1 :
  Scrape.bases g = [Z.b2z b1; Z.b2z b2; Z.b2z b3] ->
  Scrape.score g = [s0; s1] ->
  Scrape.away_or_home g = 0 \/ Scrape.away_or_home g = 1 ->
  exists g',
    Scrape.hitter "HR" g = Ok g' /\
    Scrape.bases g' = [0; 0; 0] /\
    Scrape.score g'
    = (if Scrape.away_or_home g =? 0
       then [Scrape.int64 (s0 + 1); s1]
       else [s0; Scrape.int64 (s1 + 1)]).
Proof.
  destruct g as [i o side b s on cp]; cbn [Scrape.bases Scrape.score
    Scrape.away_or_home Scrape.outs]; intros -> -> Hside.
  unfold Scrape.hitter, Scrape.add_runs.
  destruct Hside as [-> | ->]; destruct b1, b2, b3;
    cbn -[Scrape.int64 Z.add]; eexists; repeat split; reflexivity.
Qed.

(** A home run with the bases loaded is worth one run there. *)
Lemma scrape_home_run_scores_the_batter_only_witness :
  exists g',
    Scrape.hitter "HR" bases_loaded = Ok g' /\
    Scrape.bases g' = [0; 0; 0] /\
    Scrape.score g' = [Scrape.int64 (0 + 1); 0].
Proof.
  apply (scrape_home_run_scores_the_batter_only bases_loaded true true true 0 0).
  - reflexivity.
  - reflexivity.
  - left; reflexivity.
Defined.

(** ** Runners in, runners out *)

(** X19.  In [baseball_sim.py] a hit loses nobody: the runners and the
    batter are on base or have scored after it, and no out is made. *)
Lemma sim_hits_keep_count hit g w b1 b2 b3 s0 s1 :
  In hit ["1B"; "2B"; "3B"; "HR"] ->
  Sim.look (Sim.dflt_bases w) (Sim.bases g) = [b1; b2; b3] ->
  Sim.look (Sim.dflt_score w) (Sim.score g) = [s0; s1] ->
  Sim.away_or_home g = 0 \/ Sim.away_or_home g = 1 ->
  exists g' w' runs,
    Sim.resolve hit g w = Ok (g', w') /\
    Sim.look (Sim.dflt_score w') (Sim.score g')
    = (if Sim.away_or_home g =? 0 then [s0 + runs; s1] else [s0; s1 + runs]) /\
    on_base [b1; b2; b3] + 1
    = on_base (Sim.look (Sim.dflt_bases w') (Sim.bases g')) + runs /\
    Sim.outs g' = Sim.outs g.
Proof.
  intros Hhit Hb Hs Hside.
  assert (Hres : Sim.resolve hit g = Sim.hitter hit g).
  { cbn in Hhit. destruct Hhit as [<- | [<- | [<- | [<- | []]]]]; reflexivity. }
  rewrite Hres.
  unfold Sim.hitter, Sim.get_bases, Sim.deref. unfold bind at 1. unfold gets.
  rewrite Hb.
  set (b' := Sim.batted hit [b1; b2; b3]).
  destruct (sim_add_runs_ok (Sim.set_bases g (Sim.Own (firstn 3 b'))) w s0 s1
              (sum (skipn 3 b')) Hs Hside)
    as (g' & w' & Hrun & Hs' & Hb' & _ & Ho & _).
  exists g', w', (sum (skipn 3 b')). split; [exact Hrun |].
  rewrite Hb', Hs', Ho. cbn [Sim.set_bases Sim.bases Sim.look Sim.away_or_home Sim.outs].
  repeat split.
  subst b'. cbn in Hhit.
  destruct Hhit as [<- | [<- | [<- | [<- | []]]]];
    unfold on_base, sum; cbn [Sim.batted String.eqb Ascii.eqb Bool.eqb app firstn
      skipn fold_left]; lia.
Qed.

(** A double with a runner on second. *)
Lemma sim_hits_keep_count_witness :
  exists g' w' runs,
    Sim.resolve "2B" runner_on_second (Sim.boot duel zeros) = Ok (g', w') /\
    Sim.look (Sim.dflt_score w') (Sim.score g') = [0 + runs; 0] /\
    on_base [0; 1; 0] + 1
    = on_base (Sim.look (Sim.dflt_bases w') (Sim.bases g')) + runs /\
    Sim.outs g' = Sim.outs runner_on_second.
Proof.
  exact (sim_hits_keep_count "2B" runner_on_second (Sim.boot duel zeros) 0 1 0 0 0
           (or_intror (or_introl eq_refl)) eq_refl eq_refl (or_introl eq_refl)).
Defined.

(** C7, at the inputs where the files depart from it.  In
    [baseball_sim_with_scrape.py] a double with a runner on third leaves
    one runner on base and scores nobody: the batter and the runner came
    in, one of them went nowhere.  In [baseball_sim.py] the batter who
    draws ['WALK'] with the bases empty goes nowhere either. *)
Theorem a_runner_is_lost :
  match Scrape.resolve "2B" runner_on_third with
  | Ok g' =>
      on_base (Scrape.bases runner_on_third) = 1 /\
      Scrape.bases g' = [0; 1; 0] /\
      Scrape.score g' = Scrape.score runner_on_third /\
      Scrape.outs g' = Scrape.outs runner_on_third
  | _ => False
  end /\
  match Sim.resolve "WALK" Sim.Game_init (Sim.boot duel zeros) with
  | Ok (g', w') =>
      Sim.look (Sim.dflt_bases w') (Sim.bases g') = [0; 0; 0] /\
      Sim.look (Sim.dflt_score w') (Sim.score g') = [0; 0] /\
      Sim.outs g' = 0
  | _ => False
  end.
Proof. vm_compute. repeat split; reflexivity. Qed.

(** ** Rates on an empty denominator *)

(** In [baseball_sim_with_scrape.py] the three rates are [0] when their
    denominator is. *)
Lemma scrape_rates_are_zero (pr : Series) (n : nat) :
  Scrape.OBP {| probs := pr; stats := [] |} = Ok 0%Q /\
  Scrape.slugging {| probs := pr; stats := [] |} = Ok 0%Q /\
  Scrape.AVE {| probs := pr; stats := repeat "WALK" n |} = Ok 0%Q.
Proof.
  repeat split. unfold Scrape.AVE; cbn [stats].
  induction n as [| n IH]; [reflexivity | exact IH].
Qed.

(** C8, where [baseball_sim.py] departs from it: its rates divide
    without a test, and raise [ZeroDivisionError] on a batter who has not
    batted yet, the batting average on one who has only walked. *)
Theorem sim_rates_raise (pr : Series) (n : nat) :
  Sim.OBP {| probs := pr; stats := [] |} = Raise ZeroDivisionError /\
  Sim.slugging {| probs := pr; stats := [] |} = Raise ZeroDivisionError /\
  Sim.AVE {| probs := pr; stats := repeat "WALK" n |} = Raise ZeroDivisionError.
Proof.
  repeat split. unfold Sim.AVE; cbn [stats].
  induction n as [| n IH]; [reflexivity | exact IH].
Qed.

(** ** One seed, one log *)

Lemma py_index_map {A B : Type} (f : A -> B) (l : list A) (i : Z) :
  py_index (map f l) i = py_index l i.
Proof. unfold py_index. rewrite length_map. reflexivity. Qed.

Lemma py_get_map {A B : Type} (f : A -> B) (l : list A) (i : Z) :
  py_get (map f l) i = rbind (py_get l i) (fun a => Ok (f a)).
Proof.
  unfold py_get. rewrite py_index_map.
  destruct (py_index l i) as [k |]; [| reflexivity].
  rewrite nth_error_map. destruct (nth_error l k); reflexivity.
Qed.

Lemma set_nth_map {A B : Type} (f : A -> B) (l : list A) (k : nat) (v : A) :
  map f (set_nth l k v) = set_nth (map f l) k (f v).
Proof.
  revert k; induction l as [| a l IH]; intros [| k]; cbn; try reflexivity.
  rewrite IH. reflexivity.
Qed.

Lemma py_set_map {A B : Type} (f : A -> B) (l : list A) (i : Z) (v : A) :
  py_set (map f l) i (f v) = rbind (py_set l i v) (fun l' => Ok (map f l')).
Proof.
  unfold py_set. rewrite py_index_map.
  destruct (py_index l i) as [k |]; [| reflexivity].
  cbn. rewrite set_nth_map. reflexivity.
Qed.

Lemma set_nth_length {A : Type} (l : list A) (k : nat) (v : A) :
  List.length (set_nth l k v) = List.length l.
Proof.
  revert k; induction l as [| a l IH]; intros [| k]; cbn; try reflexivity.
  rewrite IH. reflexivity.
Qed.

(** Looking up akin lists. *)
Lemma py_get_akin {A B : Type} (f : A -> B) (l1 l2 : list A) (i : Z) :
  map f l1 = map f l2 ->
  match py_get l1 i, py_get l2 i with
  | Ok a, Ok b => f a = f b
  | Raise e1, Raise e2 => e1 = e2
  | OutOfFuel, OutOfFuel => True
  | _, _ => False
  end.
Proof.
  intros H.
  pose proof (py_get_map f l1 i) as H1. pose proof (py_get_map f l2 i) as H2.
  rewrite H in H1. rewrite H1 in H2.
  destruct (py_get l1 i), (py_get l2 i); cbn in H2; try exact I; congruence.
Qed.

Lemma py_set_akin {A B : Type} (f : A -> B) (l1 l2 : list A) (i : Z) (v1 v2 : A) :
  map f l1 = map f l2 -> f v1 = f v2 ->
  match py_set l1 i v1, py_set l2 i v2 with
  | Ok a, Ok b => map f a = map f b
  | Raise e1, Raise e2 => e1 = e2
  | OutOfFuel, OutOfFuel => True
  | _, _ => False
  end.
Proof.
  intros H Hv.
  pose proof (py_set_map f l1 i v1) as H1. pose proof (py_set_map f l2 i v2) as H2.
  rewrite H, Hv in H1. rewrite H1 in H2.
  destruct (py_set l1 i v1), (py_set l2 i v2); cbn in H2; try exact I; congruence.
Qed.

Lemma blind_ret {A : Type} (a : A) : blind (ret a).
Proof. intros w1 w2 H. split; [reflexivity | exact H]. Qed.

Lemma blind_bind {A B : Type} (m : Sim.M A) (k : A -> Sim.M B) :
  blind m -> (forall a, blind (k a)) -> blind (bind m k).
Proof.
  intros Hm Hk w1 w2 H. unfold bind.
  specialize (Hm w1 w2 H). unfold alike in Hm.
  destruct (m w1) as [[a1 w1'] | e1 |], (m w2) as [[a2 w2'] | e2 |];
    try contradiction; try exact Hm.
  destruct Hm as [-> Hw]. exact (Hk a2 w1' w2' Hw).
Qed.

Lemma blind_lift {A : Type} (r : result A) : blind (lift r).
Proof.
  intros w1 w2 H. unfold lift. destruct r; cbn; [split; [reflexivity | exact H] | reflexivity | exact I].
Qed.

Lemma blind_get_bases g : blind (Sim.get_bases g).
Proof.
  intros w1 w2 H. unfold Sim.get_bases, Sim.deref, gets. cbn. split; [| exact H].
  destruct H as (_ & -> & _). reflexivity.
Qed.

Lemma blind_get_score g : blind (Sim.get_score g).
Proof.
  intros w1 w2 H. unfold Sim.get_score, Sim.deref, gets. cbn. split; [| exact H].
  destruct H as (_ & _ & -> & _). reflexivity.
Qed.

Lemma blind_get_current_player g : blind (Sim.get_current_player g).
Proof.
  intros w1 w2 H. unfold Sim.get_current_player, Sim.deref, gets. cbn. split; [| exact H].
  destruct H as (_ & _ & _ & -> & _). reflexivity.
Qed.

Lemma blind_mutate_bases g l : blind (Sim.mutate_bases g l).
Proof.
  unfold Sim.mutate_bases. destruct (Sim.bases g); [| apply blind_ret].
  intros w1 w2 (Ht & Hb & Hs & Hc & Hr). cbn. repeat split; assumption.
Qed.

Lemma blind_mutate_score g l : blind (Sim.mutate_score g l).
Proof.
  unfold Sim.mutate_score. destruct (Sim.score g); [| apply blind_ret].
  intros w1 w2 (Ht & Hb & Hs & Hc & Hr). cbn. repeat split; assumption.
Qed.

Lemma blind_mutate_current_player g l : blind (Sim.mutate_current_player g l).
Proof.
  unfold Sim.mutate_current_player. destruct (Sim.current_player g); [| apply blind_ret].
  intros w1 w2 (Ht & Hb & Hs & Hc & Hr). cbn. repeat split; assumption.
Qed.

Lemma shape_eq t1 t2 :
  shape t1 = shape t2 ->
  map probs (players t1) = map probs (players t2) /\
  List.length (record t1) = List.length (record t2).
Proof. unfold shape. intros [= H1 H2]. split; assumption. Qed.

Lemma blind_draw t k : blind (draw Sim.teams Sim.rng Sim.put_teams_rng t k).
Proof.
  intros w1 w2 (Ht & Hb & Hs & Hc & Hr). unfold draw. rewrite <- Hr.
  pose proof (py_get_akin shape _ _ t Ht) as Hteam.
  destruct (py_get (Sim.teams w1) t) as [t1 | |], (py_get (Sim.teams w2) t) as [t2 | |];
    try contradiction; try exact Hteam. cbn [rbind].
  apply shape_eq in Hteam. destruct Hteam as [Hps Hrec].
  pose proof (py_get_akin probs _ _ k Hps) as Hpl.
  destruct (py_get (players t1) k) as [p1 | |], (py_get (players t2) k) as [p2 | |];
    try contradiction; try exact Hpl. cbn [rbind].
  unfold at_bat. rewrite <- Hpl.
  destruct (choice (probs p1) (Sim.rng w1)) as [[outcome r'] | |]; cbn [rbind];
    [| reflexivity | exact I].
  pose proof (py_set_akin probs (players t1) (players t2) k
                {| probs := probs p1; stats := stats p1 ++ [outcome] |}
                {| probs := probs p1; stats := stats p2 ++ [outcome] |} Hps eq_refl) as Hset.
  destruct (py_set (players t1) k _) as [ps1 | |], (py_set (players t2) k _) as [ps2 | |];
    try contradiction; try exact Hset. cbn [rbind].
  pose proof (py_set_akin shape (Sim.teams w1) (Sim.teams w2) t
                {| players := ps1; record := record t1 |}
                {| players := ps2; record := record t2 |} Ht) as Hts.
  destruct (py_set (Sim.teams w1) t _) as [ts1 | |], (py_set (Sim.teams w2) t _) as [ts2 | |];
    try (apply Hts; unfold shape; cbn; congruence).
  cbn. split; [reflexivity |].
  repeat split; try assumption.
  apply Hts. unfold shape; cbn; congruence.
Qed.

Lemma const_map_length {A : Type} (l1 l2 : list A) :
  List.length l1 = List.length l2 <->
  map (fun _ => tt) l1 = map (fun _ => tt) l2.
Proof.
  split.
  - revert l2; induction l1 as [| a l1 IH]; intros [| b l2] H; try discriminate H.
    + reflexivity.
    + cbn. f_equal. apply IH. injection H as H. exact H.
  - intros H. apply (f_equal (@List.length unit)) in H.
    rewrite !length_map in H. exact H.
Qed.

Lemma bump_record_akin ts1 ts2 t i :
  same_rosters ts1 ts2 ->
  match bump_record ts1 t i, bump_record ts2 t i with
  | Ok a, Ok b => same_rosters a b
  | Raise e1, Raise e2 => e1 = e2
  | OutOfFuel, OutOfFuel => True
  | _, _ => False
  end.
Proof.
  intros Ht. unfold bump_record.
  pose proof (py_get_akin shape _ _ t Ht) as Hteam.
  destruct (py_get ts1 t) as [t1 | |], (py_get ts2 t) as [t2 | |];
    try contradiction; try exact Hteam. cbn [rbind].
  apply shape_eq in Hteam. destruct Hteam as [Hps Hrec].
  apply const_map_length in Hrec.
  pose proof (py_get_akin _ _ _ i Hrec) as Hx.
  destruct (py_get (record t1) i) as [x1 | |], (py_get (record t2) i) as [x2 | |];
    try contradiction; try exact Hx. cbn [rbind].
  pose proof (py_set_akin _ _ _ i (x1 + 1) (x2 + 1) Hrec eq_refl) as Hset.
  destruct (py_set (record t1) i _) as [r1 | |], (py_set (record t2) i _) as [r2 | |];
    try contradiction; try exact Hset. cbn [rbind].
  apply const_map_length in Hset.
  apply (py_set_akin shape ts1 ts2 t); [exact Ht |].
  unfold shape; cbn. congruence.
Qed.

Lemma blind_bump t i : blind (Sim.bump t i).
Proof.
  intros w1 w2 (Ht & Hb & Hs & Hc & Hr). unfold Sim.bump.
  pose proof (bump_record_akin _ _ t i Ht) as H.
  destruct (bump_record (Sim.teams w1) t i), (bump_record (Sim.teams w2) t i);
    try contradiction; try exact H.
  cbn. repeat split; assumption.
Qed.

Lemma blind_out_of_fuel {A : Type} : blind (fun _ : Sim.World => @OutOfFuel (A * Sim.World)).
Proof. intros w1 w2 _. exact I. Qed.

Create HintDb blind.

#[local] Hint Resolve blind_ret blind_lift blind_get_bases blind_get_score
  blind_get_current_player blind_mutate_bases blind_mutate_score
  blind_mutate_current_player blind_draw blind_bump blind_out_of_fuel : blind.

(** Going through a computation bind by bind. *)
Ltac blindly :=
  repeat first
    [ solve [auto with blind]
    | apply blind_bind; [| intros ?]
    | match goal with
      | |- blind (if ?b then _ else _) => destruct b
      | |- blind (match ?x with _ => _ end) => destruct x
      end ].

Lemma blind_add_runs g runs : blind (Sim.add_runs g runs).
Proof. unfold Sim.add_runs. blindly. Qed.

#[local] Hint Resolve blind_add_runs : blind.

Lemma blind_walker g : blind (Sim.walker g).
Proof. unfold Sim.walker. blindly. Qed.

Lemma blind_hitter res g : blind (Sim.hitter res g).
Proof. unfold Sim.hitter. blindly. Qed.

#[local] Hint Resolve blind_walker blind_hitter : blind.

Lemma blind_resolve res g : blind (Sim.resolve res g).
Proof. unfold Sim.resolve. blindly. Qed.

Lemma blind_game_over g : blind (Sim.game_over g).
Proof. unfold Sim.game_over. blindly. Qed.

Lemma blind_change_sides g : blind (Sim.change_sides g).
Proof. unfold Sim.change_sides. blindly. Qed.

#[local] Hint Resolve blind_resolve blind_game_over blind_change_sides : blind.

Lemma blind_settle res g : blind (Sim.settle res g).
Proof. unfold Sim.settle. blindly. Qed.

#[local] Hint Resolve blind_settle : blind.

Lemma blind_handle_at_bat g : blind (Sim.handle_at_bat g).
Proof. unfold Sim.handle_at_bat. blindly. Qed.

#[local] Hint Resolve blind_handle_at_bat : blind.

Lemma blind_play fuel g : blind (Sim.play fuel g).
Proof.
  revert g; induction fuel as [| fuel IH]; intros g; cbn [Sim.play];
    destruct (Sim.game_on g); auto with blind.
  apply blind_bind; [apply blind_handle_at_bat | exact IH].
Qed.

#[local] Hint Resolve blind_play : blind.

Lemma blind_play_game fuel g : blind (Sim.play_game fuel g).
Proof. unfold Sim.play_game. blindly. Qed.

Lemma blind_games fuel its wins game_log : blind (Sim.games fuel its wins game_log).
Proof.
  revert wins game_log; induction its as [| its IH]; intros wins game_log;
    cbn [Sim.games]; [apply blind_ret |].
  apply blind_bind; [apply blind_play_game | intros [res g]]. apply IH.
Qed.

#[local] Hint Resolve blind_games : blind.

Lemma blind_simulate fuel its : blind (Sim.simulate fuel its).
Proof. unfold Sim.simulate. blindly. Qed.

Lemma alike_value {A : Type} (x y : result (A * Sim.World)) :
  alike x y -> value x = value y.
Proof.
  unfold alike, value.
  destruct x as [[a w1] | e1 |], y as [[b w2] | e2 |]; cbn; try contradiction;
    [intros [-> _] | intros -> | intros _]; reflexivity.
Qed.

(** More fuel does not change an answer. *)

(** A bind that has an answer had one in its first part. *)
Lemma bind_more {S A B : Type} (m : St S A) (k k' : A -> St S B) (s : S) :
  bind m k s <> OutOfFuel ->
  (forall a s1, m s = Ok (a, s1) -> k a s1 <> OutOfFuel -> k' a s1 = k a s1) ->
  bind m k' s = bind m k s.
Proof.
  unfold bind. destruct (m s) as [[a s1] | e |]; intros H Hk; try reflexivity.
  apply Hk; [reflexivity | exact H].
Qed.

Lemma sim_play_more fuel k g w :
  Sim.play fuel g w <> OutOfFuel ->
  Sim.play (fuel + k) g w = Sim.play fuel g w.
Proof.
  revert g w; induction fuel as [| fuel IH]; intros g w H.
  - cbn [Sim.play] in H |- *. destruct k; cbn [Nat.add Sim.play];
      destruct (Sim.game_on g); try reflexivity; contradiction H; reflexivity.
  - cbn [Nat.add Sim.play] in H |- *.
    destruct (Sim.game_on g); [| reflexivity].
    apply bind_more; [exact H |]. intros g1 w1 _ H1. apply IH. exact H1.
Qed.

Lemma sim_play_game_more fuel k g w :
  Sim.play_game fuel g w <> OutOfFuel ->
  Sim.play_game (fuel + k) g w = Sim.play_game fuel g w.
Proof.
  unfold Sim.play_game. intros H.
  assert (Hp : Sim.play fuel g w <> OutOfFuel).
  { intros E. apply H. unfold bind at 1. rewrite E. reflexivity. }
  unfold bind at 1 6. rewrite (sim_play_more fuel k g w Hp). reflexivity.
Qed.

Lemma sim_games_more fuel k its wins game_log w :
  Sim.games fuel its wins game_log w <> OutOfFuel ->
  Sim.games (fuel + k) its wins game_log w = Sim.games fuel its wins game_log w.
Proof.
  revert wins game_log w; induction its as [| its IH]; intros wins game_log w H;
    [reflexivity |].
  cbn [Sim.games] in H |- *.
  assert (Hp : Sim.play_game fuel Sim.Game_init w <> OutOfFuel).
  { intros E. apply H. unfold bind. rewrite E. reflexivity. }
  unfold bind in H |- *. rewrite (sim_play_game_more fuel k _ w Hp).
  destruct (Sim.play_game fuel Sim.Game_init w) as [[[res g1] w1] | e |];
    try reflexivity.
  apply IH. exact H.
Qed.

Lemma sim_simulate_more fuel k its w :
  Sim.simulate fuel its w <> OutOfFuel ->
  Sim.simulate (fuel + k) its w = Sim.simulate fuel its w.
Proof.
  unfold Sim.simulate. intros H.
  assert (Hp : Sim.games fuel (Z.to_nat its) 0 [] w <> OutOfFuel).
  { intros E. apply H. unfold bind. rewrite E. reflexivity. }
  unfold bind. rewrite (sim_games_more fuel k _ _ _ w Hp). reflexivity.
Qed.

Lemma value_ok {S A : Type} (x : result (A * S)) (a : A) :
  value x = Ok a -> x <> OutOfFuel.
Proof. intros H E. rewrite E in H. discriminate H. Qed.

(** In [baseball_sim.py] the log of a batch is settled by the batters
    that the rosters field, the state of the generator, the number of
    games and the three default lists of [Game.__init__] as the process
    has left them: two runs that agree on these end the same way, with the
    same log, game by game, or with the same exception, or both still
    playing when the fuel is spent; and two logs that such runs return on
    whatever fuel are the same log.  What the batters did before and what
    the records of the teams were play no part. *)
Lemma sim_same_store_same_log its w1 w2 :
  akin w1 w2 ->
  (forall fuel,
      value (Sim.simulate fuel its w1) = value (Sim.simulate fuel its w2)) /\
  (forall fuel1 fuel2 log1 log2,
      value (Sim.simulate fuel1 its w1) = Ok log1 ->
      value (Sim.simulate fuel2 its w2) = Ok log2 ->
      log1 = log2).
Proof.
  intros H.
  assert (Hsame : forall fuel,
             value (Sim.simulate fuel its w1) = value (Sim.simulate fuel its w2)).
  { intros fuel. apply alike_value, blind_simulate. exact H. }
  split; [exact Hsame |].
  intros fuel1 fuel2 log1 log2 H1 H2.
  pose proof (sim_simulate_more fuel1 fuel2 its _ (value_ok _ _ H1)) as E1.
  pose proof (sim_simulate_more fuel2 fuel1 its _ (value_ok _ _ H2)) as E2.
  rewrite <- E1 in H1. rewrite <- E2, (Nat.add_comm fuel2 fuel1), <- Hsame, H1 in H2.
  injection H2 as H2. exact H2.
Qed.

(** The store of [baseball_sim_with_scrape.py] holds the rosters and the
    generator and nothing else, and its computations cannot tell akin
    stores apart. *)

Lemma scrape_blind_ret {A : Type} (a : A) : scrape_blind (ret a).
Proof. intros w1 w2 H. split; [reflexivity | exact H]. Qed.

Lemma scrape_blind_bind {A B : Type} (m : Scrape.M A) (k : A -> Scrape.M B) :
  scrape_blind m -> (forall a, scrape_blind (k a)) -> scrape_blind (bind m k).
Proof.
  intros Hm Hk w1 w2 H. unfold bind.
  specialize (Hm w1 w2 H). unfold scrape_alike in Hm.
  destruct (m w1) as [[a1 w1'] | e1 |], (m w2) as [[a2 w2'] | e2 |];
    try contradiction; try exact Hm.
  destruct Hm as [-> Hw]. exact (Hk a2 w1' w2' Hw).
Qed.

Lemma scrape_blind_lift {A : Type} (r : result A) : scrape_blind (lift r).
Proof.
  intros w1 w2 H. unfold lift.
  destruct r; cbn; [split; [reflexivity | exact H] | reflexivity | exact I].
Qed.

Lemma scrape_blind_draw t k :
  scrape_blind (draw Scrape.teams Scrape.rng Scrape.put_teams_rng t k).
Proof.
  intros w1 w2 (Ht & Hr). unfold draw. rewrite <- Hr.
  pose proof (py_get_akin shape _ _ t Ht) as Hteam.
  destruct (py_get (Scrape.teams w1) t) as [t1 | |],
    (py_get (Scrape.teams w2) t) as [t2 | |];
    try contradiction; try exact Hteam. cbn [rbind].
  apply shape_eq in Hteam. destruct Hteam as [Hps Hrec].
  pose proof (py_get_akin probs _ _ k Hps) as Hpl.
  destruct (py_get (players t1) k) as [p1 | |], (py_get (players t2) k) as [p2 | |];
    try contradiction; try exact Hpl. cbn [rbind].
  unfold at_bat. rewrite <- Hpl.
  destruct (choice (probs p1) (Scrape.rng w1)) as [[outcome r'] | |]; cbn [rbind];
    [| reflexivity | exact I].
  pose proof (py_set_akin probs (players t1) (players t2) k
                {| probs := probs p1; stats := stats p1 ++ [outcome] |}
                {| probs := probs p1; stats := stats p2 ++ [outcome] |} Hps eq_refl) as Hset.
  destruct (py_set (players t1) k _) as [ps1 | |], (py_set (players t2) k _) as [ps2 | |];
    try contradiction; try exact Hset. cbn [rbind].
  pose proof (py_set_akin shape (Scrape.teams w1) (Scrape.teams w2) t
                {| players := ps1; record := record t1 |}
                {| players := ps2; record := record t2 |} Ht) as Hts.
  destruct (py_set (Scrape.teams w1) t _) as [ts1 | |],
    (py_set (Scrape.teams w2) t _) as [ts2 | |];
    try (apply Hts; unfold shape; cbn; congruence).
  cbn. split; [reflexivity |].
  split; [| reflexivity].
  apply Hts. unfold shape; cbn; congruence.
Qed.

Lemma scrape_blind_update_record t win : scrape_blind (Scrape.update_record t win).
Proof.
  intros w1 w2 (Ht & Hr). unfold Scrape.update_record.
  pose proof (bump_record_akin _ _ t (if win then 0 else 1) Ht) as H.
  destruct (bump_record (Scrape.teams w1) t _), (bump_record (Scrape.teams w2) t _);
    try contradiction; try exact H.
  cbn. split; [reflexivity | split; assumption].
Qed.

Lemma scrape_blind_handle_at_bat g : scrape_blind (Scrape.handle_at_bat g).
Proof.
  unfold Scrape.handle_at_bat.
  apply scrape_blind_bind; [apply scrape_blind_lift | intros k].
  apply scrape_blind_bind; [apply scrape_blind_draw | intros res].
  apply scrape_blind_lift.
Qed.

Lemma scrape_blind_play fuel g : scrape_blind (Scrape.play fuel g).
Proof.
  revert g; induction fuel as [| fuel IH]; intros g; cbn [Scrape.play];
    destruct (Scrape.game_on g); try apply scrape_blind_ret.
  - intros w1 w2 _. exact I.
  - apply scrape_blind_bind; [apply scrape_blind_handle_at_bat | exact IH].
Qed.

Lemma scrape_blind_play_game fuel g : scrape_blind (Scrape.play_game fuel g).
Proof.
  unfold Scrape.play_game.
  apply scrape_blind_bind; [apply scrape_blind_play | intros g1].
  apply scrape_blind_bind; [apply scrape_blind_lift | intros s1].
  apply scrape_blind_bind; [apply scrape_blind_lift | intros s0].
  apply scrape_blind_bind; [apply scrape_blind_update_record | intros _].
  apply scrape_blind_bind; [apply scrape_blind_update_record | intros _].
  apply scrape_blind_ret.
Qed.

Lemma scrape_blind_games fuel its wins game_log :
  scrape_blind (Scrape.games fuel its wins game_log).
Proof.
  revert wins game_log; induction its as [| its IH]; intros wins game_log;
    cbn [Scrape.games]; [apply scrape_blind_ret |].
  apply scrape_blind_bind; [apply scrape_blind_play_game | intros [res g]]. apply IH.
Qed.

Lemma scrape_blind_simulate fuel its : scrape_blind (Scrape.simulate fuel its).
Proof.
  unfold Scrape.simulate.
  apply scrape_blind_bind; [apply scrape_blind_games | intros [wins game_log]].
  destruct (its =? 0); [apply scrape_blind_lift | apply scrape_blind_ret].
Qed.

(** In [baseball_sim_with_scrape.py] the batters that the rosters field,
    the state of the generator and the number of games settle the log,
    whatever was played in the process before: every game owns its
    lists. *)
Lemma scrape_same_seed_same_log fuel its w1 w2 :
  same_rosters (Scrape.teams w1) (Scrape.teams w2) ->
  Scrape.rng w1 = Scrape.rng w2 ->
  value (Scrape.simulate fuel its w1) = value (Scrape.simulate fuel its w2).
Proof.
  intros Ht Hr.
  pose proof (scrape_blind_simulate fuel its w1 w2 (conj Ht Hr)) as H.
  unfold scrape_alike, value in *.
  destruct (Scrape.simulate fuel its w1) as [[a u1] | e1 |],
    (Scrape.simulate fuel its w2) as [[b u2] | e2 |]; cbn; try contradiction;
    [destruct H as [-> _] | subst e2 |]; reflexivity.
Qed.

(** The two batches of the next theorem in [baseball_sim_with_scrape.py]:
    the same log twice. *)
Lemma scrape_second_batch_repeats_the_first :
  match Scrape.simulate 60 1 {| Scrape.teams := duel; Scrape.rng := early_homer |} with
  | Ok (log1, w1) =>
      log1 = [{| final_score := [0; 1]; winner := 1 |}] /\
      value (Scrape.simulate 60 1
               {| Scrape.teams := Scrape.teams w1; Scrape.rng := early_homer |})
      = Ok log1 /\
      value (Scrape.simulate 60 1 {| Scrape.teams := duel; Scrape.rng := early_homer |})
      = Ok log1
  | _ => False
  end.
Proof. vm_compute. repeat split; reflexivity. Qed.

(** C10, at the input where [baseball_sim.py] departs from it: a batch of
    one game, run twice in one process, the generator seeded before each
    run with the seed that stands for [early_homer], whose one home run
    is hit by the first home batter.  The first run logs 0-1.  It leaves
    the default score at 0-1, and the second run, on the same rosters (or
    on new ones that field the same batters), from the same state of the
    generator and for the same number of games, starts from there and logs
    0-2. *)
Theorem sim_same_seed_another_log :
  match Sim.simulate 60 1 (seed early_homer (Sim.boot duel zeros)) with
  | Ok (log1, w1) =>
      log1 = [{| final_score := [0; 1]; winner := 1 |}] /\
      Sim.look (Sim.dflt_score w1) (Sim.score Sim.Game_init) = [0; 1] /\
      same_rosters (Sim.teams w1) duel /\
      Sim.rng (seed early_homer w1) = early_homer /\
      value (Sim.simulate 60 1 (seed early_homer w1))
      = Ok [{| final_score := [0; 2]; winner := 1 |}] /\
      value (Sim.simulate 60 1 (Sim.put_teams_rng duel early_homer w1))
      = Ok [{| final_score := [0; 2]; winner := 1 |}]
  | _ => False
  end.
Proof. vm_compute. repeat split; reflexivity. Qed.

(** * More of the two simulators *)

(** ** Sound games *)

Lemma scrape_new_game_is_sound : scrape_sound Scrape.Game_init.
Proof.
  unfold scrape_sound, bits3, bit, is_int64. cbn.
  split; [exists 0, 0, 0; auto 10 |].
  split; [exists 0, 0; repeat split; lia |].
  split; [lia | auto].
Qed.

Lemma sim_new_game_is_sound ts r : sim_sound Sim.Game_init (Sim.boot ts r).
Proof.
  unfold sim_sound, bits3, bit. cbn.
  split; [exists 0, 0, 0; auto 10 |].
  split; [exists 0, 0; reflexivity |].
  split; [exists 0, 0; repeat split; lia |].
  split; [lia | auto].
Qed.

Lemma int64_is_int64 z : is_int64 (Scrape.int64 z).
Proof.
  unfold is_int64, Scrape.int64.
  pose proof (Z.mod_pos_bound (z + 2 ^ 63) (2 ^ 64) ltac:(lia)). lia.
Qed.

Lemma int64_small z : is_int64 z -> Scrape.int64 z = z.
Proof.
  unfold is_int64, Scrape.int64. intros H.
  rewrite Z.mod_small by lia. lia.
Qed.

Lemma small_outs o : 0 <= o < 3 -> o = 0 \/ o = 1 \/ o = 2.
Proof. lia. Qed.

(** The six outcomes, one by one, and any other. *)
Ltac labels res :=
  destruct (String.eqb res "OUT") eqn:?;
  [| destruct (String.eqb res "WALK") eqn:?;
     [| destruct (String.eqb res "1B") eqn:?;
        [| destruct (String.eqb res "2B") eqn:?;
           [| destruct (String.eqb res "3B") eqn:?;
              [| destruct (String.eqb res "HR") eqn:?]]]]].

(** Evaluating the closed lists and sums of a goal. *)
Ltac crunch :=
  repeat match goal with
    | |- context [Scrape.walked ?l] =>
        let v := eval vm_compute in (Scrape.walked l) in
        change (Scrape.walked l) with v
    | |- context [Scrape.sum64 ?l] =>
        let v := eval vm_compute in (Scrape.sum64 l) in
        change (Scrape.sum64 l) with v
    end.

(** What the outcome of an at-bat does to a sound game. *)
Lemma scrape_resolve_sound res g s0 s1 :
  bits3 (Scrape.bases g) ->
  Scrape.score g = [s0; s1] -> is_int64 s0 -> is_int64 s1 ->
  bit (Scrape.away_or_home g) ->
  exists g1 r,
    Scrape.resolve res g = Ok g1 /\
    bit r /\
    bits3 (Scrape.bases g1) /\
    Scrape.score g1
    = (if Scrape.away_or_home g =? 0
       then [Scrape.int64 (s0 + r); s1] else [s0; Scrape.int64 (s1 + r)]) /\
    Scrape.outs g1
    = (if String.eqb res "OUT" then Scrape.outs g + 1 else Scrape.outs g) /\
    Scrape.inning g1 = Scrape.inning g /\
    Scrape.away_or_home g1 = Scrape.away_or_home g /\
    Scrape.game_on g1 = Scrape.game_on g /\
    Scrape.current_player g1 = Scrape.current_player g.
Proof.
  destruct g as [i o side b s on cp].
  cbn [Scrape.bases Scrape.score Scrape.outs Scrape.away_or_home Scrape.inning
       Scrape.game_on Scrape.current_player].
  intros (b1 & b2 & b3 & -> & H1 & H2 & H3) -> Hs0 Hs1 Hside.
  unfold Scrape.resolve, Scrape.walker, Scrape.hitter, Scrape.batted, Scrape.add_runs,
    bits3, bit in *.
  labels res;
    [ exists (Scrape.mkGame i (o + 1) side [b1; b2; b3] [s0; s1] on cp), 0;
      rewrite !Z.add_0_r, !int64_small by assumption;
      destruct Hside as [-> | ->]; cbn; repeat split; eauto 10 | .. ].
  all: destruct Hside as [-> | ->];
    destruct H1 as [-> | ->]; destruct H2 as [-> | ->]; destruct H3 as [-> | ->];
    cbn [Scrape.bases Scrape.set_bases Scrape.score Scrape.away_or_home app firstn skipn];
    crunch; cbn -[Scrape.int64 Z.add];
    eexists; eexists ?[r]; (split; [reflexivity |]);
    cbn -[Scrape.int64 Z.add];
    (split; [| split; [do 3 eexists; split; [reflexivity | auto] |
                       repeat split; reflexivity]]); auto.
Qed.

(** Whatever the outcome, [settle] raises nothing on a sound game and
    leaves it sound. *)
Lemma scrape_settle_sound res g :
  scrape_sound g ->
  exists g',
    Scrape.settle res g = Ok g' /\ scrape_sound g' /\
    Scrape.inning g <= Scrape.inning g' <= Scrape.inning g + 1.
Proof.
  intros (Hb & (s0 & s1 & Hs & Hs0 & Hs1) & Ho & Hside).
  destruct (scrape_resolve_sound res g s0 s1 Hb Hs Hs0 Hs1 Hside)
    as (g1 & r & Hres & Hr & Hb1 & Hs1' & Ho1 & Hi1 & Ha1 & Hon1 & Hc1).
  assert (Hsc : exists x y, Scrape.score g1 = [x; y] /\ is_int64 x /\ is_int64 y).
  { rewrite Hs1'. destruct (Scrape.away_or_home g =? 0); do 2 eexists;
      (split; [reflexivity |]); split; auto using int64_is_int64. }
  destruct Hsc as (x & y & Hxy & Hx & Hy).
  unfold Scrape.settle. rewrite Hres. cbn [rbind].
  rewrite (scrape_game_over_spec g1 x y Hxy). cbn [rbind].
  set (over := _ && _ && _). clearbody over.
  eexists. split; [reflexivity |].
  assert (Ho' : 0 <= Scrape.outs g1 <= 3).
  { rewrite Ho1. destruct (String.eqb res "OUT"); lia. }
  destruct g1 as [i1 o1 a1 b1 sc1 on1 cp1].
  cbn [Scrape.bases Scrape.score Scrape.outs Scrape.away_or_home Scrape.inning
       Scrape.game_on Scrape.current_player] in *.
  subst i1 a1 sc1.
  unfold Scrape.change_sides, scrape_sound.
  destruct over; cbn [Scrape.outs Scrape.set_game_on Scrape.away_or_home
                       Scrape.game_on Scrape.inning Scrape.bases Scrape.score];
    destruct (Z.leb_spec 3 o1);
    destruct Hside as [E | E]; rewrite E;
    cbn -[Z.add];
    (split; [split; [unfold bits3, bit; eauto 10 |
                     split; [do 2 eexists; split; [reflexivity |
                               split; auto using int64_is_int64] |
                             split; [lia | unfold bit; auto]]] | lia]).
Qed.

(** What [settle] adds to [resolve]: the flag, and the change of sides. *)
Lemma scrape_settle_after_resolve res g g1 x y :
  Scrape.resolve res g = Ok g1 ->
  Scrape.score g1 = [x; y] ->
  exists over,
    Scrape.settle res g
    = Ok (Scrape.change_sides (if over : bool then Scrape.set_game_on g1 false else g1)).
Proof.
  intros Hres Hxy. unfold Scrape.settle. rewrite Hres. cbn [rbind].
  rewrite (scrape_game_over_spec g1 x y Hxy). cbn [rbind]. eexists. reflexivity.
Qed.

Lemma scrape_change_sides_score g :
  Scrape.score (Scrape.change_sides g) = Scrape.score g.
Proof.
  unfold Scrape.change_sides.
  destruct (3 <=? Scrape.outs g); [destruct (Scrape.away_or_home g =? 1) |]; reflexivity.
Qed.

(** X2.  No at-bat of [baseball_sim_with_scrape.py] brings in more than
    one run, whatever its outcome and wherever the runners are, and none
    changes the score of the side in the field; the score of the side at
    bat stays a 64-bit integer. *)
Theorem scrape_at_bat_scores_at_most_one_run res g :
  scrape_sound g ->
  exists g' r s0 s1,
    Scrape.score g = [s0; s1] /\
    Scrape.settle res g = Ok g' /\
    (r = 0 \/ r = 1) /\
    Scrape.score g'
    = (if Scrape.away_or_home g =? 0
       then [Scrape.int64 (s0 + r); s1] else [s0; Scrape.int64 (s1 + r)]).
Proof.
  intros (Hb & (s0 & s1 & Hs & Hs0 & Hs1) & _ & Hside).
  destruct (scrape_resolve_sound res g s0 s1 Hb Hs Hs0 Hs1 Hside)
    as (g1 & r & Hres & Hr & _ & Hsc & _).
  assert (Hxy : exists x y, Scrape.score g1 = [x; y]).
  { rewrite Hsc. destruct (_ =? 0); eauto. }
  destruct Hxy as (x & y & Hxy).
  destruct (scrape_settle_after_resolve res g g1 x y Hres Hxy) as (over & Hset).
  eexists; exists r, s0, s1. split; [exact Hs |]. split; [exact Hset |].
  split; [exact Hr |].
  rewrite scrape_change_sides_score, <- Hsc. destruct over; reflexivity.
Qed.

(** A home run with the bases loaded, in the top of the first. *)
Lemma scrape_at_bat_scores_at_most_one_run_witness :
  scrape_sound bases_loaded /\
  exists g' r s0 s1,
    Scrape.score bases_loaded = [s0; s1] /\
    Scrape.settle "HR" bases_loaded = Ok g' /\
    (r = 0 \/ r = 1) /\
    Scrape.score g'
    = (if Scrape.away_or_home bases_loaded =? 0
       then [Scrape.int64 (s0 + r); s1] else [s0; Scrape.int64 (s1 + r)]).
Proof.
  assert (H : scrape_sound bases_loaded).
  { unfold scrape_sound, bits3, bit, is_int64. cbn.
    split; [exists 1, 1, 1; auto 10 |].
    split; [exists 0, 0; repeat split; lia |].
    split; [lia | auto]. }
  split; [exact H |].
  exact (scrape_at_bat_scores_at_most_one_run "HR" bases_loaded H).
Defined.





(** The at-bat that [handle_at_bat] has made is [settle] on some outcome. *)
Lemma scrape_handle_settles g w g' w' :
  Scrape.handle_at_bat g w = Ok (g', w') ->
  exists res, Scrape.settle res g = Ok g'.
Proof.
  unfold Scrape.handle_at_bat. intros H. unroll. eauto.
Qed.

(** X1.  An at-bat of [baseball_sim_with_scrape.py] keeps a game sound: three
    bases that are each empty or taken, a score of two 64-bit integers,
    fewer than three outs, a side that is 0 or 1; and the inning stays or
    goes up by one. *)
Theorem scrape_at_bat_keeps_the_game_sound g w g' w' :
  scrape_sound g ->
  Scrape.handle_at_bat g w = Ok (g', w') ->
  scrape_sound g' /\
  Scrape.inning g <= Scrape.inning g' <= Scrape.inning g + 1.
Proof.
  intros Hg H. apply scrape_handle_settles in H. destruct H as (res & H).
  destruct (scrape_settle_sound res g Hg) as (g1 & H1 & Hs & Hi).
  rewrite H in H1. injection H1 as <-. split; assumption.
Qed.

(** The first at-bat of a game. *)
Lemma scrape_at_bat_keeps_the_game_sound_witness :
  match Scrape.handle_at_bat Scrape.Game_init
          {| Scrape.teams := duel; Scrape.rng := one_homer |} with
  | Ok (g', _) =>
      scrape_sound g' /\
      Scrape.inning Scrape.Game_init <= Scrape.inning g'
      <= Scrape.inning Scrape.Game_init + 1
  | _ => False
  end.
Proof.
  destruct (Scrape.handle_at_bat Scrape.Game_init
              {| Scrape.teams := duel; Scrape.rng := one_homer |})
    as [[g' w'] | e |] eqn:E.
  - exact (scrape_at_bat_keeps_the_game_sound _ _ g' w' scrape_new_game_is_sound E).
  - vm_compute in E. discriminate E.
  - vm_compute in E. discriminate E.
Defined.

(** When [settle] puts the flag down, the inning is the ninth or a later
    one and the scores differ. *)
Lemma scrape_settle_flag res g g' :
  scrape_sound g -> Scrape.game_on g = true ->
  Scrape.settle res g = Ok g' ->
  Scrape.game_on g' = false ->
  9 <= Scrape.inning g' /\
  exists x y, Scrape.score g' = [x; y] /\ x <> y.
Proof.
  intros (Hb & (s0 & s1 & Hs & Hs0 & Hs1) & Ho & Hside) Hon Hset Hoff.
  destruct (scrape_resolve_sound res g s0 s1 Hb Hs Hs0 Hs1 Hside)
    as (g1 & r & Hres & Hr & Hb1 & Hsc & Ho1 & Hi1 & Ha1 & Hon1 & Hc1).
  assert (Hxy : exists x y, Scrape.score g1 = [x; y]).
  { rewrite Hsc. destruct (_ =? 0); eauto. }
  destruct Hxy as (x & y & Hxy).
  unfold Scrape.settle in Hset. rewrite Hres in Hset. cbn [rbind] in Hset.
  rewrite (scrape_game_over_spec g1 x y Hxy) in Hset. cbn [rbind] in Hset.
  injection Hset as <-.
  rewrite scrape_change_sides_on in Hoff.
  rewrite scrape_change_sides_score.
  destruct (9 <=? Scrape.inning g1) eqn:E9; cbn [andb] in *;
    [| cbn in Hoff; congruence].
  apply Z.leb_le in E9.
  destruct (_ || _); cbn [andb] in *; [| cbn in Hoff; congruence].
  destruct (Z.eqb_spec x y); cbn [negb] in *; [cbn in Hoff; congruence |].
  split.
  - unfold Scrape.change_sides.
    destruct (3 <=? _); [destruct (_ =? 1) |]; cbn; lia.
  - exists x, y. split; [exact Hxy | assumption].
Qed.

Lemma scrape_play_ends fuel g w g' w' :
  scrape_sound g -> Scrape.game_on g = true ->
  Scrape.play fuel g w = Ok (g', w') ->
  Scrape.game_on g' = false /\ 9 <= Scrape.inning g' /\
  exists x y, Scrape.score g' = [x; y] /\ x <> y.
Proof.
  revert g w; induction fuel as [| fuel IH]; intros g w Hg Hon H;
    cbn [Scrape.play] in H; rewrite Hon in H; [discriminate H |].
  unroll.
  pose proof (scrape_handle_settles _ _ _ _ H0) as (res & Hset).
  destruct (scrape_settle_sound res g Hg) as (g1 & H1 & Hs1 & _).
  rewrite Hset in H1. injection H1 as <-.
  destruct (Scrape.game_on a) eqn:Hon1.
  - exact (IH _ _ Hs1 Hon1 H).
  - destruct fuel; cbn [Scrape.play] in H; rewrite Hon1 in H;
      unfold ret in H; injection H as <- <-;
      (split; [exact Hon1 | exact (scrape_settle_flag res g a Hg Hon Hset Hon1)]).
Qed.

(** When [play_game] returns for a sound game in progress, the two sides
    of the final score differ, the winner is the side with the higher
    one, and the game has reached the ninth inning. *)
Lemma scrape_game_is_decided fuel g w res g' w' :
  scrape_sound g -> Scrape.game_on g = true ->
  Scrape.play_game fuel g w = Ok (res, g', w') ->
  exists s0 s1,
    final_score res = [s0; s1] /\ s0 <> s1 /\
    winner res = (if s0 <? s1 then 1 else 0) /\
    9 <= Scrape.inning g'.
Proof.
  intros Hg Hon H. unfold Scrape.play_game in H. unroll.
  unfold ret in H. injection H as <- <- <-.
  destruct (scrape_play_ends _ _ _ _ _ Hg Hon H0) as (_ & Hi & x & y & Hxy & Hne).
  rewrite Hxy, py_get_1 in H1. rewrite Hxy, py_get_0 in H2.
  injection H1 as <-. injection H2 as <-.
  exists x, y. cbn. repeat split; assumption.
Qed.

Lemma sim_walker_forces g w (b1 b2 b3 : bool) s0 s1 :
  Sim.look (Sim.dflt_bases w) (Sim.bases g) = [Z.b2z b1; Z.b2z b2; Z.b2z b3] ->
  Sim.look (Sim.dflt_score w) (Sim.score g) = [s0; s1] ->
  Sim.away_or_home g = 0 \/ Sim.away_or_home g = 1 ->
  exists g' w',
    Sim.walker g w = Ok (g', w') /\
    Sim.bases g' = Sim.Own [1; Z.b2z (b1 || b2); Z.b2z (b1 && b2 || b3)] /\
    Sim.look (Sim.dflt_score w') (Sim.score g')
    = (if Sim.away_or_home g =? 0
       then [s0 + Z.b2z (b1 && b2 && b3); s1]
       else [s0; s1 + Z.b2z (b1 && b2 && b3)]) /\
    Sim.dflt_bases w'
    = walked_through (Sim.bases g) (Sim.dflt_bases w)
        [1; Z.b2z (b1 || b2); Z.b2z (b1 && b2 || b3); Z.b2z (b1 && b2 && b3)] /\
    Sim.outs g' = Sim.outs g /\ Sim.inning g' = Sim.inning g /\
    Sim.away_or_home g' = Sim.away_or_home g /\ Sim.game_on g' = Sim.game_on g /\
    Sim.current_player g' = Sim.current_player g /\
    Sim.dflt_current_player w' = Sim.dflt_current_player w /\
    Sim.teams w' = Sim.teams w /\ Sim.rng w' = Sim.rng w.
Proof.
  intros Hb Hs Hside.
  unfold Sim.walker, Sim.get_bases, Sim.deref.
  unfold bind at 1. unfold gets at 1. rewrite Hb.
  set (b' := [1; Z.b2z (b1 || b2); Z.b2z (b1 && b2 || b3); Z.b2z (b1 && b2 && b3)]).
  assert (Hw : Sim.walked [Z.b2z b1; Z.b2z b2; Z.b2z b3] = Ok b')
    by (destruct b1, b2, b3; reflexivity).
  assert (Hlast : py_get b' (-1) = Ok (Z.b2z (b1 && b2 && b3))) by reflexivity.
  assert (Hfirst : firstn 3 b' = [1; Z.b2z (b1 || b2); Z.b2z (b1 && b2 || b3)])
    by reflexivity.
  unfold bind at 1. rewrite Hw. cbn [lift rbind].
  unfold bind at 1. unfold Sim.mutate_bases.
  destruct (Sim.bases g) as [| l] eqn:Eb.
  - cbn [Sim.look] in Hb.
    set (w1 := Sim.mkWorld _ b' _ _ _).
    unfold bind at 1. rewrite Hlast. cbn [lift rbind]. rewrite Hfirst.
    destruct (sim_add_runs_ok (Sim.set_bases g (Sim.Own [1; Z.b2z (b1 || b2);
                Z.b2z (b1 && b2 || b3)])) w1 s0 s1 (Z.b2z (b1 && b2 && b3)) Hs Hside)
      as (g' & w' & Hrun & Hs' & Hb' & Hd & Ho & Hi & Ha & Hon & Hc & Hdc & Ht & Hr).
    exists g', w'. split; [exact Hrun |].
    rewrite Hb', Hs', Hd, Ho, Hi, Ha, Hon, Hc, Hdc, Ht, Hr.
    cbn. repeat split; reflexivity.
  - cbn [Sim.look] in Hb. unfold ret at 1.
    unfold bind at 1. rewrite Hlast. cbn [lift rbind]. rewrite Hfirst.
    destruct (sim_add_runs_ok
                (Sim.set_bases (Sim.set_bases g (Sim.Own b'))
                   (Sim.Own [1; Z.b2z (b1 || b2); Z.b2z (b1 && b2 || b3)]))
                w s0 s1 (Z.b2z (b1 && b2 && b3)) Hs Hside)
      as (g' & w' & Hrun & Hs' & Hb' & Hd & Ho & Hi & Ha & Hon & Hc & Hdc & Ht & Hr).
    exists g', w'. split; [exact Hrun |].
    rewrite Hb', Hs', Hd, Ho, Hi, Ha, Hon, Hc, Hdc, Ht, Hr.
    cbn. repeat split; reflexivity.
Qed.

Lemma bit_b2z z : bit z -> exists b : bool, z = Z.b2z b.
Proof. intros [-> | ->]; [exists false | exists true]; reflexivity. Qed.

Lemma b2z_bit b : bit (Z.b2z b).
Proof. destruct b; [right | left]; reflexivity. Qed.

(** What a hit of [baseball_sim.py] makes of three bases. *)
Lemma sim_batted_sound res b1 b2 b3 :
  bit b1 -> bit b2 -> bit b3 ->
  bits3 (firstn 3 (Sim.batted res [b1; b2; b3])) /\
  0 <= sum (skipn 3 (Sim.batted res [b1; b2; b3])) <= 4.
Proof.
  intros H1 H2 H3. unfold Sim.batted, bits3, bit in *.
  destruct (String.eqb res "1B"); [| destruct (String.eqb res "2B");
    [| destruct (String.eqb res "3B"); [| destruct (String.eqb res "HR")]]];
    cbn [app firstn skipn]; unfold sum; cbn [fold_left];
    (split; [do 3 eexists; split; [reflexivity | auto] | lia]).
Qed.

(** What the outcome of an at-bat does to a sound game of
    [baseball_sim.py]. *)
Lemma sim_resolve_sound res g w s0 s1 :
  bits3 (Sim.look (Sim.dflt_bases w) (Sim.bases g)) ->
  Sim.look (Sim.dflt_score w) (Sim.score g) = [s0; s1] ->
  bit (Sim.away_or_home g) ->
  exists g1 w1 r,
    Sim.resolve res g w = Ok (g1, w1) /\
    0 <= r <= 4 /\
    bits3 (Sim.look (Sim.dflt_bases w1) (Sim.bases g1)) /\
    Sim.look (Sim.dflt_score w1) (Sim.score g1)
    = (if Sim.away_or_home g =? 0 then [s0 + r; s1] else [s0; s1 + r]) /\
    Sim.outs g1
    = (if String.eqb res "OUT" then Sim.outs g + 1 else Sim.outs g) /\
    Sim.inning g1 = Sim.inning g /\
    Sim.away_or_home g1 = Sim.away_or_home g /\
    Sim.game_on g1 = Sim.game_on g /\
    Sim.current_player g1 = Sim.current_player g /\
    Sim.dflt_current_player w1 = Sim.dflt_current_player w /\
    Sim.teams w1 = Sim.teams w /\ Sim.rng w1 = Sim.rng w.
Proof.
  intros Hb Hs Hside. unfold Sim.resolve.
  destruct (String.eqb res "OUT").
  { exists (Sim.set_outs g (Sim.outs g + 1)), w, 0. rewrite !Z.add_0_r.
    cbn. repeat split; try assumption; try lia.
    destruct (_ =? 0); exact Hs. }
  destruct Hb as (b1 & b2 & b3 & Hb & H1 & H2 & H3).
  destruct (String.eqb res "BB").
  - destruct (bit_b2z _ H1) as (c1 & ->), (bit_b2z _ H2) as (c2 & ->),
      (bit_b2z _ H3) as (c3 & ->).
    destruct (sim_walker_forces g w c1 c2 c3 s0 s1 Hb Hs Hside)
      as (g' & w' & Hrun & Hb' & Hs' & _ & Ho & Hi & Ha & Hon & Hc & Hdc & Ht & Hr).
    exists g', w', (Z.b2z (c1 && c2 && c3)). split; [exact Hrun |].
    rewrite Hb', Hs'. cbn [Sim.look].
    repeat split; try assumption; try (destruct c1, c2, c3; cbn; lia).
    unfold bits3. do 3 eexists. split; [reflexivity |].
    repeat split; try apply b2z_bit. right; reflexivity.
  - unfold Sim.hitter, Sim.get_bases, Sim.deref. unfold bind at 1. unfold gets.
    rewrite Hb.
    destruct (sim_batted_sound res b1 b2 b3 H1 H2 H3) as (Hb3 & Hruns).
    set (b' := Sim.batted res [b1; b2; b3]) in *.
    destruct (sim_add_runs_ok (Sim.set_bases g (Sim.Own (firstn 3 b'))) w s0 s1
                (sum (skipn 3 b')) Hs Hside)
      as (g' & w' & Hrun & Hs' & Hb' & Hd & Ho & Hi & Ha & Hon & Hc & Hdc & Ht & Hr).
    exists g', w', (sum (skipn 3 b')). split; [exact Hrun |].
    rewrite Hb', Hs'.
    cbn [Sim.look Sim.set_bases Sim.bases Sim.away_or_home Sim.outs Sim.inning
         Sim.game_on Sim.current_player] in *.
    repeat split; assumption || lia.
Qed.

(** The end of the half-inning in [baseball_sim.py]. *)
Lemma sim_change_sides_spec g w c0 c1 :
  Sim.look (Sim.dflt_current_player w) (Sim.current_player g) = [c0; c1] ->
  bit (Sim.away_or_home g) ->
  exists g' w',
    Sim.change_sides g w = Ok (g', w') /\
    Sim.game_on g' = Sim.game_on g /\ Sim.score g' = Sim.score g /\
    Sim.dflt_score w' = Sim.dflt_score w /\ Sim.dflt_bases w' = Sim.dflt_bases w /\
    Sim.teams w' = Sim.teams w /\ Sim.rng w' = Sim.rng w /\
    if 3 <=? Sim.outs g then
      Sim.outs g' = 0 /\ Sim.bases g' = Sim.Own [0; 0; 0] /\
      Sim.away_or_home g' = 1 - Sim.away_or_home g /\
      Sim.inning g' = Sim.inning g + Sim.away_or_home g /\
      Sim.look (Sim.dflt_current_player w') (Sim.current_player g')
      = (if Sim.away_or_home g =? 0
         then [(c0 + 1) mod 9; c1] else [c0; (c1 + 1) mod 9])
    else g' = g /\ w' = w.
Proof.
  intros Hc Hside. unfold Sim.change_sides.
  destruct (3 <=? Sim.outs g); [| exists g, w; repeat split; reflexivity].
  unfold Sim.get_current_player, Sim.deref, Sim.mutate_current_player, bind, gets, lift, ret.
  destruct g as [i o side b s on cp], w as [ts db ds dc r]; cbn in Hc, Hside |- *.
  destruct Hside as [-> | ->]; cbn -[py_get py_set Z.modulo Z.add]; rewrite Hc;
    rewrite ?py_get_0, ?py_get_1; cbn -[py_get py_set Z.modulo Z.add];
    rewrite ?py_set_0, ?py_set_1; cbn -[py_get py_set Z.modulo Z.add];
    destruct cp; cbn -[Z.modulo Z.add]; do 2 eexists;
    (split; [reflexivity |]); cbn -[Z.modulo Z.add]; repeat split;
    reflexivity || lia.
Qed.

(** Everything [settle] does to a sound game of [baseball_sim.py]. *)
Lemma sim_settle_spec res g w :
  sim_sound g w ->
  exists g1 w1 r over g' w' s0 s1 c0 c1,
    Sim.look (Sim.dflt_score w) (Sim.score g) = [s0; s1] /\
    Sim.look (Sim.dflt_current_player w) (Sim.current_player g) = [c0; c1] /\
    0 <= c0 < 9 /\ 0 <= c1 < 9 /\
    Sim.resolve res g w = Ok (g1, w1) /\
    0 <= r <= 4 /\
    bits3 (Sim.look (Sim.dflt_bases w1) (Sim.bases g1)) /\
    Sim.look (Sim.dflt_score w1) (Sim.score g1)
    = (if Sim.away_or_home g =? 0 then [s0 + r; s1] else [s0; s1 + r]) /\
    Sim.outs g1 = (if String.eqb res "OUT" then Sim.outs g + 1 else Sim.outs g) /\
    Sim.inning g1 = Sim.inning g /\ Sim.away_or_home g1 = Sim.away_or_home g /\
    Sim.game_on g1 = Sim.game_on g /\
    Sim.game_over g1 w1 = Ok (over, w1) /\
    Sim.settle res g w = Ok (g', w') /\
    Sim.game_on g' = (if over then false else Sim.game_on g) /\
    Sim.look (Sim.dflt_score w') (Sim.score g')
    = Sim.look (Sim.dflt_score w1) (Sim.score g1) /\
    Sim.teams w' = Sim.teams w /\ Sim.rng w' = Sim.rng w /\
    if 3 <=? Sim.outs g1 then
      Sim.outs g' = 0 /\ Sim.bases g' = Sim.Own [0; 0; 0] /\
      Sim.away_or_home g' = 1 - Sim.away_or_home g /\
      Sim.inning g' = Sim.inning g + Sim.away_or_home g /\
      Sim.look (Sim.dflt_current_player w') (Sim.current_player g')
      = (if Sim.away_or_home g =? 0
         then [(c0 + 1) mod 9; c1] else [c0; (c1 + 1) mod 9])
    else
      Sim.outs g' = Sim.outs g1 /\
      Sim.look (Sim.dflt_bases w') (Sim.bases g')
      = Sim.look (Sim.dflt_bases w1) (Sim.bases g1) /\
      Sim.away_or_home g' = Sim.away_or_home g /\
      Sim.inning g' = Sim.inning g /\
      Sim.look (Sim.dflt_current_player w') (Sim.current_player g') = [c0; c1].
Proof.
  intros (Hb & (s0 & s1 & Hs) & (c0 & c1 & Hc & Hc0 & Hc1) & Ho & Hside).
  destruct (sim_resolve_sound res g w s0 s1 Hb Hs Hside)
    as (g1 & w1 & r & Hres & Hr & Hb1 & Hs1 & Ho1 & Hi1 & Ha1 & Hon1 & Hcp1 & Hdc1 & Ht1 & Hr1).
  assert (Hxy : exists x y, Sim.look (Sim.dflt_score w1) (Sim.score g1) = [x; y]).
  { rewrite Hs1. destruct (_ =? 0); eauto. }
  destruct Hxy as (x & y & Hxy).
  pose proof (sim_game_over_spec g1 w1 x y Hxy) as Hover.
  set (over := (9 <=? Sim.inning g1) && _) in Hover.
  set (g2 := if over then Sim.set_game_on g1 false else g1).
  assert (Hc2 : Sim.look (Sim.dflt_current_player w1) (Sim.current_player g2) = [c0; c1]).
  { subst g2. destruct over; cbn; rewrite Hcp1, Hdc1; exact Hc. }
  assert (Hside2 : bit (Sim.away_or_home g2)).
  { subst g2. destruct over; cbn; rewrite Ha1; exact Hside. }
  destruct (sim_change_sides_spec g2 w1 c0 c1 Hc2 Hside2)
    as (g' & w' & Hch & Hon' & Hsc' & Hds' & Hdb' & Ht' & Hr' & Hrest).
  exists g1, w1, r, over, g', w', s0, s1, c0, c1.
  assert (E2 : Sim.outs g2 = Sim.outs g1 /\ Sim.away_or_home g2 = Sim.away_or_home g
               /\ Sim.inning g2 = Sim.inning g /\ Sim.score g2 = Sim.score g1
               /\ Sim.bases g2 = Sim.bases g1
               /\ Sim.game_on g2 = (if over then false else Sim.game_on g)).
  { subst g2. destruct over; cbn; repeat split; congruence. }
  destruct E2 as (E2o & E2a & E2i & E2s & E2b & E2g).
  repeat (split; [assumption || lia |]).
  split; [unfold Sim.settle, bind; rewrite Hres, Hover; exact Hch |].
  split; [congruence |].
  split; [rewrite Hsc', Hds', E2s; reflexivity |].
  split; [congruence |]. split; [congruence |].
  rewrite E2o in Hrest. destruct (3 <=? Sim.outs g1).
  - rewrite E2a, E2i in Hrest. exact Hrest.
  - destruct Hrest as [-> ->]. rewrite E2o, E2b, E2a, E2i. repeat split. exact Hc2.
Qed.

(** Whatever the outcome, [settle] raises nothing on a sound game of
    [baseball_sim.py] and leaves it sound. *)
Lemma sim_settle_sound res g w :
  sim_sound g w ->
  exists g' w',
    Sim.settle res g w = Ok (g', w') /\ sim_sound g' w' /\
    Sim.inning g <= Sim.inning g' <= Sim.inning g + 1.
Proof.
  intros Hg. pose proof Hg as (Hb & _ & _ & Ho & Hside).
  destruct (sim_settle_spec res g w Hg)
    as (g1 & w1 & r & over & g' & w' & s0 & s1 & c0 & c1 & Hs & Hc & Hc0 & Hc1 & Hres
        & Hr & Hb1 & Hs1 & Ho1 & Hi1 & Ha1 & Hon1 & Hover & Hset & Hon' & Hs' & Ht & Hrg
        & Hrest).
  exists g', w'. split; [exact Hset |].
  assert (Hsc : exists x y, Sim.look (Sim.dflt_score w') (Sim.score g') = [x; y]).
  { rewrite Hs', Hs1. destruct (_ =? 0); eauto. }
  assert (Ho' : 0 <= Sim.outs g1 <= 3).
  { rewrite Ho1. destruct (String.eqb res "OUT"); lia. }
  unfold sim_sound.
  destruct (Z.leb_spec 3 (Sim.outs g1)).
  - destruct Hrest as (E1 & E2 & E3 & E4 & E5).
    rewrite E1, E2, E3, E4, E5. cbn [Sim.look].
    pose proof (Z.mod_pos_bound (c0 + 1) 9 ltac:(lia)).
    pose proof (Z.mod_pos_bound (c1 + 1) 9 ltac:(lia)).
    split; [split; [unfold bits3, bit; eauto 10 |
      split; [exact Hsc | split; [| split; [lia | destruct Hside as [E | E]; rewrite E;
         unfold bit; auto]]]] | destruct Hside as [E | E]; rewrite E; lia].
    destruct (_ =? 0); do 2 eexists; (split; [reflexivity |]); split; assumption.
  - destruct Hrest as (E1 & E2 & E3 & E4 & E5).
    rewrite E1, E2, E3, E4, E5.
    split; [split; [exact Hb1 | split; [exact Hsc | split; [eauto 10 |
      split; [lia | exact Hside]]]] | lia].
Qed.

(** What [draw] has done when it returns. *)
Lemma draw_ok {S : Type} (get_teams : S -> list Team) (get_rng : S -> RandomState)
    (put : list Team -> RandomState -> S -> S) (t k : Z) (s s' : S) (res : string) :
  draw get_teams get_rng put t k s = Ok (res, s') ->
  exists team p r' ps ts,
    py_get (get_teams s) t = Ok team /\
    py_get (players team) k = Ok p /\
    choice (probs p) (get_rng s) = Ok (res, r') /\
    py_set (players team) k {| probs := probs p; stats := stats p ++ [res] |} = Ok ps /\
    py_set (get_teams s) t {| players := ps; record := record team |} = Ok ts /\
    s' = put ts r' s.
Proof.
  unfold draw, at_bat. intros H. unroll. destruct a2 as [o r]. unroll.
  exists a, a0, r, a1, a2. repeat split; assumption.
Qed.

(** [at_bat] of a batter of [baseball_sim.py] leaves the three default
    lists alone. *)
Lemma sim_draw_frame t k w res w1 :
  draw Sim.teams Sim.rng Sim.put_teams_rng t k w = Ok (res, w1) ->
  Sim.dflt_bases w1 = Sim.dflt_bases w /\
  Sim.dflt_score w1 = Sim.dflt_score w /\
  Sim.dflt_current_player w1 = Sim.dflt_current_player w.
Proof.
  intros H. apply draw_ok in H.
  destruct H as (team & p & r' & ps & ts & _ & _ & _ & _ & _ & ->).
  repeat split.
Qed.

Lemma sim_sound_frame g w w1 :
  Sim.dflt_bases w1 = Sim.dflt_bases w ->
  Sim.dflt_score w1 = Sim.dflt_score w ->
  Sim.dflt_current_player w1 = Sim.dflt_current_player w ->
  sim_sound g w -> sim_sound g w1.
Proof.
  unfold sim_sound. intros -> -> ->. exact (fun H => H).
Qed.

(** The at-bat that [handle_at_bat] has made is [settle] on some outcome,
    after the draw. *)
Lemma sim_handle_settles g w g' w' :
  Sim.handle_at_bat g w = Ok (g', w') ->
  exists res w1,
    Sim.dflt_bases w1 = Sim.dflt_bases w /\
    Sim.dflt_score w1 = Sim.dflt_score w /\
    Sim.dflt_current_player w1 = Sim.dflt_current_player w /\
    Sim.settle res g w1 = Ok (g', w').
Proof.
  unfold Sim.handle_at_bat. intros H. unroll.
  unfold Sim.get_current_player, Sim.deref, gets in H0. injection H0 as <- <-.
  destruct (sim_draw_frame _ _ _ _ _ H2) as (E1 & E2 & E3).
  eauto 10.
Qed.

(** X9.  An at-bat of [baseball_sim.py] keeps a game sound: three bases
    that are each empty or taken, a score of two items, both batting
    orders at one of their nine slots, fewer than three outs, a side
    that is 0 or 1; and the inning stays or goes up by one. *)
Theorem sim_at_bat_keeps_the_game_sound g w g' w' :
  sim_sound g w ->
  Sim.handle_at_bat g w = Ok (g', w') ->
  sim_sound g' w' /\
  Sim.inning g <= Sim.inning g' <= Sim.inning g + 1.
Proof.
  intros Hg H. apply sim_handle_settles in H.
  destruct H as (res & w1 & E1 & E2 & E3 & H).
  pose proof (sim_sound_frame g w w1 E1 E2 E3 Hg) as Hg1.
  destruct (sim_settle_sound res g w1 Hg1) as (g2 & w2 & H2 & Hs & Hi).
  rewrite H in H2. injection H2 as <- <-. split; assumption.
Qed.

(** The first at-bat of the first game of a process. *)
Lemma sim_at_bat_keeps_the_game_sound_witness :
  match Sim.handle_at_bat Sim.Game_init (Sim.boot duel one_homer) with
  | Ok (g', w') =>
      sim_sound g' w' /\
      Sim.inning Sim.Game_init <= Sim.inning g' <= Sim.inning Sim.Game_init + 1
  | _ => False
  end.
Proof.
  destruct (Sim.handle_at_bat Sim.Game_init (Sim.boot duel one_homer))
    as [[g' w'] | e |] eqn:E.
  - exact (sim_at_bat_keeps_the_game_sound _ _ g' w'
             (sim_new_game_is_sound duel one_homer) E).
  - vm_compute in E. discriminate E.
  - vm_compute in E. discriminate E.
Defined.






(** When [settle] of [baseball_sim.py] puts the flag down, the inning is
    the ninth or a later one and the scores differ. *)
Lemma sim_settle_flag res g w g' w' :
  sim_sound g w -> Sim.game_on g = true ->
  Sim.settle res g w = Ok (g', w') ->
  Sim.game_on g' = false ->
  9 <= Sim.inning g' /\
  exists x y, Sim.look (Sim.dflt_score w') (Sim.score g') = [x; y] /\ x <> y.
Proof.
  intros Hg Hon Hset Hoff.
  destruct (sim_settle_spec res g w Hg)
    as (g1 & w1 & r & over & g2 & w2 & s0 & s1 & c0 & c1 & Hs & Hc & Hc0 & Hc1 & Hr1
        & Hr & Hb1 & Hs1 & Ho1 & Hi1 & Ha1 & Hon1 & Hover & Hset2 & Hon' & Hs' & Ht & Hrg
        & Hrest).
  rewrite Hset in Hset2. injection Hset2 as <- <-.
  assert (Hxy : exists x y, Sim.look (Sim.dflt_score w1) (Sim.score g1) = [x; y]).
  { rewrite Hs1. destruct (_ =? 0); eauto. }
  destruct Hxy as (x & y & Hxy).
  rewrite (sim_game_over_spec g1 w1 x y Hxy) in Hover. injection Hover as Hover.
  destruct over; [| congruence].
  apply andb_true_iff in Hover. destruct Hover as [H9 Hover].
  apply Z.leb_le in H9. rewrite Hi1 in H9.
  split.
  - destruct (3 <=? Sim.outs g1); destruct Hrest as (_ & _ & _ & E & _);
      pose proof Hg as (_ & _ & _ & _ & [Ea | Ea]); rewrite E, ?Ea; lia.
  - exists x, y. split; [rewrite Hs'; exact Hxy |].
    apply orb_true_iff in Hover. destruct Hover as [Hover | Hover];
      apply andb_true_iff in Hover; destruct Hover as [_ Hlt];
      apply Z.ltb_lt in Hlt; lia.
Qed.

Lemma sim_play_ends fuel g w g' w' :
  sim_sound g w -> Sim.game_on g = true ->
  Sim.play fuel g w = Ok (g', w') ->
  Sim.game_on g' = false /\ 9 <= Sim.inning g' /\
  exists x y, Sim.look (Sim.dflt_score w') (Sim.score g') = [x; y] /\ x <> y.
Proof.
  revert g w; induction fuel as [| fuel IH]; intros g w Hg Hon H;
    cbn [Sim.play] in H; rewrite Hon in H; [discriminate H |].
  unroll.
  destruct (sim_handle_settles _ _ _ _ H0) as (res & w1 & E1 & E2 & E3 & Hset).
  pose proof (sim_sound_frame g w w1 E1 E2 E3 Hg) as Hg1.
  destruct (sim_settle_sound res g w1 Hg1) as (g2 & w2 & H2 & Hs2 & _).
  rewrite Hset in H2. injection H2 as <- <-.
  destruct (Sim.game_on a) eqn:Hon1.
  - exact (IH _ _ Hs2 Hon1 H).
  - destruct fuel; cbn [Sim.play] in H; rewrite Hon1 in H;
      unfold ret in H; injection H as <- <-;
      (split; [exact Hon1 | exact (sim_settle_flag res g w1 a w0 Hg1 Hon Hset Hon1)]).
Qed.

(** X12.  No game of [baseball_sim.py] ends in a tie: when [play_game]
    returns for a sound game in progress, the two sides of the final
    score differ and the winner is the side with the higher one. *)
Theorem sim_no_game_ends_in_a_tie fuel g w res g' w' :
  sim_sound g w -> Sim.game_on g = true ->
  Sim.play_game fuel g w = Ok (res, g', w') ->
  exists s0 s1,
    final_score res = [s0; s1] /\ s0 <> s1 /\
    winner res = (if s0 <? s1 then 1 else 0).
Proof.
  intros Hg Hon H. unfold Sim.play_game in H. unroll.
  unfold ret in H. injection H as <- <- <-.
  destruct (sim_play_ends _ _ _ _ _ Hg Hon H0) as (_ & Hi & x & y & Hxy & Hne).
  unfold Sim.get_score, Sim.deref, gets in H1. injection H1 as <- <-.
  rewrite Hxy, py_get_0 in H2. rewrite Hxy, py_get_1 in H3.
  injection H2 as <-. injection H3 as <-.
  exists x, y. cbn. repeat split; assumption.
Qed.

(** The first game of a process, won in the bottom of the ninth. *)
Lemma sim_no_game_ends_in_a_tie_witness :
  match Sim.play_game 60 Sim.Game_init (Sim.boot duel one_homer) with
  | Ok (res, _, _) =>
      exists s0 s1,
        final_score res = [s0; s1] /\ s0 <> s1 /\
        winner res = (if s0 <? s1 then 1 else 0)
  | _ => False
  end.
Proof.
  destruct (Sim.play_game 60 Sim.Game_init (Sim.boot duel one_homer))
    as [[[res g'] w'] | e |] eqn:E.
  - exact (sim_no_game_ends_in_a_tie 60 _ _ res g' w'
             (sim_new_game_is_sound duel one_homer) eq_refl E).
  - vm_compute in E. discriminate E.
  - vm_compute in E. discriminate E.
Defined.

(** ** Writing an item over *)

Lemma set_nth_image {A B : Type} (f : A -> B) (l : list A) (k : nat) (a v : A) :
  nth_error l k = Some a -> f v = f a -> map f (set_nth l k v) = map f l.
Proof.
  revert k; induction l as [| h l IH]; intros [| k]; cbn; try discriminate.
  - intros [= ->] ->. reflexivity.
  - intros H Hv. rewrite (IH k H Hv). reflexivity.
Qed.

Lemma set_nth_list_sum {A : Type} (f : A -> nat) (l : list A) (k : nat) (a v : A) :
  nth_error l k = Some a ->
  (list_sum (map f (set_nth l k v)) + f a = list_sum (map f l) + f v)%nat.
Proof.
  revert k; induction l as [| h l IH]; intros [| k];
    cbn [nth_error set_nth map list_sum fold_right]; try discriminate.
  - intros [= ->]. fold (list_sum (map f l)). lia.
  - intros H. specialize (IH k H).
    fold (list_sum (map f l)). fold (list_sum (map f (set_nth l k v))). lia.
Qed.

Lemma py_get_set {A : Type} (l l' : list A) (i : Z) (a v : A) :
  py_get l i = Ok a -> py_set l i v = Ok l' ->
  exists k, nth_error l k = Some a /\ l' = set_nth l k v.
Proof.
  unfold py_get, py_set. destruct (py_index l i) as [k |]; [| discriminate].
  destruct (nth_error l k) as [x |] eqn:E; [| discriminate].
  intros [= ->] [= <-]. eauto.
Qed.

Lemma py_set_image {A B : Type} (f : A -> B) (l l' : list A) (i : Z) (a v : A) :
  py_get l i = Ok a -> py_set l i v = Ok l' -> f v = f a -> map f l' = map f l.
Proof.
  intros Hg Hs Hv. destruct (py_get_set l l' i a v Hg Hs) as (k & Hk & ->).
  exact (set_nth_image f l k a v Hk Hv).
Qed.

Lemma py_set_list_sum {A : Type} (f : A -> nat) (l l' : list A) (i : Z) (a v : A) :
  py_get l i = Ok a -> py_set l i v = Ok l' ->
  (list_sum (map f l') + f a = list_sum (map f l) + f v)%nat.
Proof.
  intros Hg Hs. destruct (py_get_set l l' i a v Hg Hs) as (k & Hk & ->).
  exact (set_nth_list_sum f l k a v Hk).
Qed.

(** ** One draw, one at-bat *)

Lemma choice_next p r res r' : choice p r = Ok (res, r') -> r' = next r.
Proof.
  unfold choice, random_sample.
  destruct (existsb _ _); [discriminate |].
  destruct (Qlt_le_dec _ _); [discriminate |].
  destruct (searchsorted _ _ _ _); [| discriminate].
  intros [= <- <-]. reflexivity.
Qed.

Lemma searchsorted_label p total acc u label :
  searchsorted p total acc u = Some label -> In label (map fst p).
Proof.
  revert acc; induction p as [| [l w] p IH]; intros acc; cbn; [discriminate |].
  destruct (Qlt_le_dec _ _); [intros [= ->]; left; reflexivity |].
  intros H. right. exact (IH _ H).
Qed.

Lemma choice_label p r res r' : choice p r = Ok (res, r') -> In res (map fst p).
Proof.
  unfold choice, random_sample.
  destruct (existsb _ _); [discriminate |].
  destruct (Qlt_le_dec _ _); [discriminate |].
  destruct (searchsorted _ _ _ _) eqn:E; [| discriminate].
  intros [= <- <-]. exact (searchsorted_label _ _ _ _ _ E).
Qed.

(** What [draw] leaves as it was, and what it adds. *)
Lemma draw_counts {S : Type} (get_teams : S -> list Team) (get_rng : S -> RandomState)
    (put : list Team -> RandomState -> S -> S) (t k : Z) (s s' : S) (res : string) :
  draw get_teams get_rng put t k s = Ok (res, s') ->
  exists ts,
    s' = put ts (next (get_rng s)) s /\
    map record ts = map record (get_teams s) /\
    lineups ts = lineups (get_teams s) /\
    recorded ts = Datatypes.S (recorded (get_teams s)).
Proof.
  intros H. apply draw_ok in H.
  destruct H as (team & p & r' & ps & ts & Ht & Hp & Hc & Hps & Hts & ->).
  apply choice_next in Hc. subst r'.
  exists ts. split; [reflexivity |].
  pose proof (py_set_image probs _ _ _ _ _ Hp Hps eq_refl) as Hprobs.
  pose proof (py_set_list_sum (fun p => List.length (stats p)) _ _ _ _ _ Hp Hps) as Hn.
  cbn [stats] in Hn. rewrite length_app in Hn. cbn [List.length] in Hn.
  split; [exact (py_set_image record _ _ _ _ _ Ht Hts eq_refl) |].
  split.
  - unfold lineups.
    apply (py_set_image (fun t => map probs (players t)) _ _ _ _ _ Ht Hts).
    exact Hprobs.
  - pose proof (py_set_list_sum at_bats_of _ _ _ _ _ Ht Hts) as Hm.
    change (at_bats_of {| players := ps; record := record team |})
      with (list_sum (map (fun p => List.length (stats p)) ps)) in Hm.
    change (at_bats_of team)
      with (list_sum (map (fun p => List.length (stats p)) (players team))) in Hm.
    unfold recorded. lia.
Qed.

(** X6.  An at-bat of [baseball_sim_with_scrape.py] takes one draw from
    the generator and puts one outcome on one history: the generator is
    one draw further, the batters have one at-bat more on record between
    them, and the distributions of the batters and the records of the
    teams are as they were. *)
Theorem scrape_at_bat_is_one_draw g w g' w' :
  Scrape.handle_at_bat g w = Ok (g', w') ->
  Scrape.rng w' = next (Scrape.rng w) /\
  map record (Scrape.teams w') = map record (Scrape.teams w) /\
  lineups (Scrape.teams w') = lineups (Scrape.teams w) /\
  recorded (Scrape.teams w') = Datatypes.S (recorded (Scrape.teams w)).
Proof.
  unfold Scrape.handle_at_bat. intros H. unroll.
  apply draw_counts in H1. destruct H1 as (ts & -> & Hrec & Hl & Hn).
  cbn. repeat split; assumption.
Qed.

(** The first at-bat of a game. *)
Lemma scrape_at_bat_is_one_draw_witness :
  match Scrape.handle_at_bat Scrape.Game_init
          {| Scrape.teams := duel; Scrape.rng := one_homer |} with
  | Ok (_, w') =>
      Scrape.rng w' = next one_homer /\
      map record (Scrape.teams w') = map record duel /\
      lineups (Scrape.teams w') = lineups duel /\
      recorded (Scrape.teams w') = Datatypes.S (recorded duel)
  | _ => False
  end.
Proof.
  destruct (Scrape.handle_at_bat Scrape.Game_init
              {| Scrape.teams := duel; Scrape.rng := one_homer |})
    as [[g' w'] | e |] eqn:E.
  - exact (scrape_at_bat_is_one_draw _ _ g' w' E).
  - vm_compute in E. discriminate E.
  - vm_compute in E. discriminate E.
Defined.

(** What a run of at-bats leaves as it was, and what it counts. *)
Lemma scrape_play_counts fuel g w g' w' :
  Scrape.play fuel g w = Ok (g', w') ->
  map record (Scrape.teams w') = map record (Scrape.teams w) /\
  lineups (Scrape.teams w') = lineups (Scrape.teams w) /\
  stream (Scrape.rng w') = stream (Scrape.rng w) /\
  (pos (Scrape.rng w') + recorded (Scrape.teams w)
   = pos (Scrape.rng w) + recorded (Scrape.teams w'))%nat.
Proof.
  revert g w; induction fuel as [| fuel IH]; intros g w H; cbn [Scrape.play] in H;
    destruct (Scrape.game_on g);
    try discriminate H;
    try (unfold ret in H; injection H as <- <-; repeat split; reflexivity).
  unroll.
  unfold Scrape.handle_at_bat in H0. unroll.
  apply draw_counts in H2. destruct H2 as (ts & -> & Hrec & Hl & Hn).
  destruct (IH _ _ H) as (E1 & E2 & E3 & E4).
  cbn [Scrape.teams Scrape.rng Scrape.put_teams_rng next pos stream] in E1, E2, E3, E4.
  rewrite E1, E2, E3. repeat split; try assumption. lia.
Qed.

(** [record[i] += 1] on a team touches that record and nothing else. *)
Lemma bump_record_players ts t i ts' :
  bump_record ts t i = Ok ts' -> map players ts' = map players ts.
Proof.
  unfold bump_record. intros H. unroll.
  exact (py_set_image players _ _ _ _ _ H0 H eq_refl).
Qed.

Lemma lineups_players ts ts' : map players ts' = map players ts -> lineups ts' = lineups ts.
Proof.
  unfold lineups. intros H.
  rewrite <- (map_map players (map probs) ts'), <- (map_map players (map probs) ts), H.
  reflexivity.
Qed.

Lemma recorded_players ts ts' : map players ts' = map players ts -> recorded ts' = recorded ts.
Proof.
  unfold recorded, at_bats_of. intros H.
  rewrite <- (map_map players (fun ps => list_sum (map (fun p => List.length (stats p)) ps)) ts'),
    <- (map_map players (fun ps => list_sum (map (fun p => List.length (stats p)) ps)) ts), H.
  reflexivity.
Qed.

Lemma bump_record_two ts a0 b0 a1 b1 t i ts' :
  map record ts = [[a0; b0]; [a1; b1]] ->
  bit t -> bit i ->
  bump_record ts t i = Ok ts' ->
  map record ts'
  = (if t =? 0
     then [(if i =? 0 then [a0 + 1; b0] else [a0; b0 + 1]); [a1; b1]]
     else [[a0; b0]; (if i =? 0 then [a1 + 1; b1] else [a1; b1 + 1])]).
Proof.
  destruct ts as [| [p0 r0] [| [p1 r1] [| ? ?]]]; cbn [map record]; try discriminate.
  intros [= -> ->] Ht Hi. unfold bump_record.
  destruct Ht as [-> | ->], Hi as [-> | ->];
    rewrite ?py_get_0, ?py_get_1; cbn [rbind record players];
    rewrite ?py_get_0, ?py_get_1; cbn [rbind];
    rewrite ?py_set_0, ?py_set_1; cbn [rbind];
    rewrite ?py_set_0, ?py_set_1; intros [= <-]; reflexivity.
Qed.

Lemma scrape_update_record_ok t win w u w' :
  Scrape.update_record t win w = Ok (u, w') ->
  exists ts,
    bump_record (Scrape.teams w) t (if win then 0 else 1) = Ok ts /\
    w' = Scrape.mkWorld ts (Scrape.rng w).
Proof.
  unfold Scrape.update_record. intros H. unroll. eexists. split; [eassumption | reflexivity].
Qed.

(** X7.  A game of [baseball_sim_with_scrape.py] that [play_game] has
    played goes on record once: the winner of the log has a win more, the
    other team a loss more, and nothing else of the records changes.  The
    game has taken as many draws from the generator as it has put at-bats
    on the histories, and it leaves the distributions of the batters and
    the sequence of the generator as they were. *)
Theorem scrape_game_goes_on_record fuel g w res g' w' a0 b0 a1 b1 :
  map record (Scrape.teams w) = [[a0; b0]; [a1; b1]] ->
  Scrape.play_game fuel g w = Ok (res, g', w') ->
  map record (Scrape.teams w')
  = (if winner res =? 0 then [[a0 + 1; b0]; [a1; b1 + 1]]
     else [[a0; b0 + 1]; [a1 + 1; b1]]) /\
  lineups (Scrape.teams w') = lineups (Scrape.teams w) /\
  stream (Scrape.rng w') = stream (Scrape.rng w) /\
  (pos (Scrape.rng w') + recorded (Scrape.teams w)
   = pos (Scrape.rng w) + recorded (Scrape.teams w'))%nat.
Proof.
  intros Hrec H. unfold Scrape.play_game in H. unroll.
  apply scrape_play_counts in H0. destruct H0 as (E1 & E2 & E3 & E4).
  apply scrape_update_record_ok in H3. destruct H3 as (ts2 & Hb2 & ->).
  apply scrape_update_record_ok in H4. destruct H4 as (ts3 & Hb3 & ->).
  cbn [Scrape.teams Scrape.rng] in Hb3.
  unfold ret in H. injection H as <- <- <-.
  cbn [winner Scrape.teams Scrape.rng].
  pose proof (bump_record_players _ _ _ _ Hb2) as P2.
  pose proof (bump_record_players _ _ _ _ Hb3) as P3.
  rewrite P2 in P3.
  rewrite (lineups_players _ _ P3), (recorded_players _ _ P3).
  split; [| repeat split; assumption].
  rewrite <- E1 in Hrec.
  destruct (a3 <? a2).
  - pose proof (bump_record_two _ _ _ _ _ 1 0 _ Hrec
                  (or_intror eq_refl) (or_introl eq_refl) Hb2) as R2.
    exact (bump_record_two _ _ _ _ _ (1 - 1) 1 _ R2
             (or_introl eq_refl) (or_intror eq_refl) Hb3).
  - pose proof (bump_record_two _ _ _ _ _ 0 0 _ Hrec
                  (or_introl eq_refl) (or_introl eq_refl) Hb2) as R2.
    exact (bump_record_two _ _ _ _ _ (1 - 0) 1 _ R2
             (or_intror eq_refl) (or_intror eq_refl) Hb3).
Qed.

(** A game won by the home side in the bottom of the ninth. *)
Lemma scrape_game_goes_on_record_witness :
  match Scrape.play_game 60 Scrape.Game_init
          {| Scrape.teams := duel; Scrape.rng := one_homer |} with
  | Ok (res, _, w') =>
      map record (Scrape.teams w')
      = (if winner res =? 0 then [[0 + 1; 0]; [0; 0 + 1]]
         else [[0; 0 + 1]; [0 + 1; 0]]) /\
      lineups (Scrape.teams w') = lineups duel /\
      stream (Scrape.rng w') = stream one_homer /\
      (pos (Scrape.rng w') + recorded duel
       = pos one_homer + recorded (Scrape.teams w'))%nat
  | _ => False
  end.
Proof.
  destruct (Scrape.play_game 60 Scrape.Game_init
              {| Scrape.teams := duel; Scrape.rng := one_homer |})
    as [[[res g'] w'] | e |] eqn:E.
  - exact (scrape_game_goes_on_record 60 Scrape.Game_init
             {| Scrape.teams := duel; Scrape.rng := one_homer |} res g' w' 0 0 0 0
             eq_refl E).
  - vm_compute in E. discriminate E.
  - vm_compute in E. discriminate E.
Defined.











(** X13.  The outcome ['BB'] in [baseball_sim.py]: the batter takes first
    and the forced runners move, the runner on second when first was
    taken, the runner on third when first and second were, and a run
    scores when the bases were loaded; no out is made.  A game that still
    refers to the default list of the bases leaves that list with four
    items, the three bases and the run: the games built after it start
    from there. *)
Theorem sim_base_on_balls_forces_the_runners g w (b1 b2 b3 : bool) s0 s1 :
  Sim.look (Sim.dflt_bases w) (Sim.bases g) = [Z.b2z b1; Z.b2z b2; Z.b2z b3] ->
  Sim.look (Sim.dflt_score w) (Sim.score g) = [s0; s1] ->
  bit (Sim.away_or_home g) ->
  exists g' w',
    Sim.resolve "BB" g w = Ok (g', w') /\
    Sim.bases g' = Sim.Own [1; Z.b2z (b1 || b2); Z.b2z (b1 && b2 || b3)] /\
    Sim.look (Sim.dflt_score w') (Sim.score g')
    = (if Sim.away_or_home g =? 0
       then [s0 + Z.b2z (b1 && b2 && b3); s1]
       else [s0; s1 + Z.b2z (b1 && b2 && b3)]) /\
    Sim.outs g' = Sim.outs g /\
    Sim.dflt_bases w'
    = walked_through (Sim.bases g) (Sim.dflt_bases w)
        [1; Z.b2z (b1 || b2); Z.b2z (b1 && b2 || b3); Z.b2z (b1 && b2 && b3)].
Proof.
  intros Hb Hs Hside.
  destruct (sim_walker_forces g w b1 b2 b3 s0 s1 Hb Hs Hside)
    as (g' & w' & H & E1 & E2 & E3 & E4 & _).
  exists g', w'. repeat split; assumption.
Qed.

(** The first batter of the first game of a process. *)
Lemma sim_base_on_balls_forces_the_runners_witness :
  exists g' w',
    Sim.resolve "BB" Sim.Game_init (Sim.boot duel zeros) = Ok (g', w') /\
    Sim.bases g' = Sim.Own [1; 0; 0] /\
    Sim.look (Sim.dflt_score w') (Sim.score g') = [0; 0] /\
    Sim.outs g' = 0 /\
    Sim.look (Sim.dflt_bases w') (Sim.bases Sim.Game_init) = [1; 0; 0; 0].
Proof.
  exact (sim_base_on_balls_forces_the_runners Sim.Game_init (Sim.boot duel zeros)
           false false false 0 0 eq_refl eq_refl (or_introl eq_refl)).
Defined.

Lemma scrape_games_log fuel its wins game_log w wins' game_log' w' :
  Scrape.games fuel its wins game_log w = Ok (wins', game_log', w') ->
  List.length game_log' = (List.length game_log + its)%nat /\
  (Forall decided game_log -> Forall decided game_log').
Proof.
  revert wins game_log w; induction its as [| its IH]; intros wins game_log w H;
    cbn [Scrape.games] in H.
  - unfold ret in H. injection H as <- <- <-. split; [lia | exact (fun H => H)].
  - unroll. destruct a as [res g].
    destruct (IH _ _ _ H) as [Hlen Hall]. rewrite length_app in Hlen. cbn in Hlen.
    split; [lia |].
    intros Hd. apply Hall. apply Forall_app. split; [exact Hd |].
    constructor; [| constructor].
    destruct (scrape_game_is_decided fuel Scrape.Game_init w res g w0
                scrape_new_game_is_sound eq_refl H0) as (s0 & s1 & E1 & E2 & E3 & _).
    exists s0, s1. repeat split; assumption.
Qed.

(** X5.  The log of [Simulator.simulate] in
    [baseball_sim_with_scrape.py]: for no game the call raises
    [ZeroDivisionError], from the message that it prints; for a negative
    number of games it plays nothing and returns the empty log; and a log
    that it returns for [its] games has [its] entries, each of them a game
    that one side has won, with the side of the higher score as its
    winner. *)
Theorem scrape_batch_log fuel its w :
  if its =? 0 then Scrape.simulate fuel its w = Raise ZeroDivisionError
  else if its <? 0 then Scrape.simulate fuel its w = Ok ([], w)
  else match Scrape.simulate fuel its w with
       | Ok (log, _) => List.length log = Z.to_nat its /\ Forall decided log
       | _ => True
       end.
Proof.
  unfold Scrape.simulate.
  destruct (Z.eqb_spec its 0) as [-> | Hne]; [reflexivity |].
  destruct (Z.ltb_spec its 0) as [Hlt | Hge].
  - replace (Z.to_nat its) with 0%nat by lia. reflexivity.
  - unfold bind.
    destruct (Scrape.games fuel (Z.to_nat its) 0 [] w) as [[[wins log] w'] | e |] eqn:E;
      try exact I.
    unfold ret. apply scrape_games_log in E. destruct E as [Hlen Hall].
    split; [exact Hlen | apply Hall; constructor].
Qed.

Lemma sim_games_log fuel its wins game_log w wins' game_log' w' :
  Sim.games fuel its wins game_log w = Ok (wins', game_log', w') ->
  List.length game_log' = (List.length game_log + its)%nat.
Proof.
  revert wins game_log w; induction its as [| its IH]; intros wins game_log w H;
    cbn [Sim.games] in H.
  - unfold ret in H. injection H as <- <- <-. lia.
  - unroll. destruct a as [res g].
    pose proof (IH _ _ _ H) as Hlen. rewrite length_app in Hlen. cbn in Hlen. lia.
Qed.

(** X16.  The log of [Simulator.simulate] in [baseball_sim.py]: for no
    game the call raises [ZeroDivisionError], from the message that it
    prints; for a negative number of games it plays nothing and returns
    the empty log; and a log that it returns for [its] games has [its]
    entries. *)
Theorem sim_batch_log fuel its w :
  if its =? 0 then Sim.simulate fuel its w = Raise ZeroDivisionError
  else if its <? 0 then Sim.simulate fuel its w = Ok ([], w)
  else match Sim.simulate fuel its w with
       | Ok (log, _) => List.length log = Z.to_nat its
       | _ => True
       end.
Proof.
  unfold Sim.simulate.
  destruct (Z.eqb_spec its 0) as [-> | Hne]; [reflexivity |].
  destruct (Z.ltb_spec its 0) as [Hlt | Hge].
  - replace (Z.to_nat its) with 0%nat by lia. reflexivity.
  - unfold bind.
    destruct (Sim.games fuel (Z.to_nat its) 0 [] w) as [[[wins log] w'] | e |] eqn:E;
      try exact I.
    unfold ret. exact (sim_games_log _ _ _ _ _ _ _ _ E).
Qed.

(** ** The rates of a batter *)

Lemma filter_length_le {A : Type} (f : A -> bool) (l : list A) :
  (List.length (filter f l) <= List.length l)%nat.
Proof.
  induction l as [| a l IH]; cbn; [lia |]. destruct (f a); cbn; lia.
Qed.

Lemma quotient_bounds (s d k : Z) :
  0 < d -> 0 <= s <= k * d -> (0 <= (s # 1) / (d # 1) <= k # 1)%Q.
Proof.
  intros Hd Hs. destruct d as [| d | d]; try lia.
  unfold Qle, Qdiv, Qmult, Qinv. cbn [Qnum Qden]. cbn. nia.
Qed.

Lemma ratio_bounds (n d : nat) :
  (0 < d)%nat -> (n <= d)%nat -> (0 <= ratio n d <= 1)%Q.
Proof.
  intros Hd Hn. unfold ratio. apply (quotient_bounds _ _ 1); lia.
Qed.

Lemma py_div_bounds (n d : nat) :
  (0 < d)%nat -> (n <= d)%nat -> exists q, py_div n d = Ok q /\ (0 <= q <= 1)%Q.
Proof.
  intros Hd Hn. destruct d as [| d]; [lia |].
  exists (ratio n (S d)). split; [reflexivity | apply ratio_bounds; lia].
Qed.

Lemma sum_from (l : list Z) (a : Z) : fold_left Z.add l a = a + sum l.
Proof.
  unfold sum. revert a; induction l as [| x l IH]; intros a; cbn [fold_left]; [lia |].
  rewrite IH, (IH (0 + x)). lia.
Qed.

Lemma sum_cons (x : Z) (l : list Z) : sum (x :: l) = x + sum l.
Proof. unfold sum at 1. cbn [fold_left]. rewrite sum_from. lia. Qed.

Lemma scrape_bases_bounds label : 0 <= Scrape.Player_bases label <= 4.
Proof.
  unfold Scrape.Player_bases.
  repeat match goal with |- context [if ?b then _ else _] => destruct b end; lia.
Qed.

Lemma sim_bases_bounds label : 0 <= Sim.Player_bases label <= 4.
Proof.
  unfold Sim.Player_bases.
  repeat match goal with |- context [if ?b then _ else _] => destruct b end; lia.
Qed.

Lemma total_bases_bounds (f : string -> Z) (l : list string) :
  (forall x, 0 <= f x <= 4) ->
  0 <= sum (map f l) <= 4 * Z.of_nat (List.length l).
Proof.
  intros Hf. induction l as [| x l IH]; [cbn; lia |].
  cbn [map List.length]. rewrite sum_cons. specialize (Hf x). lia.
Qed.

(** X8.  The rates of [baseball_sim_with_scrape.py] never raise, whatever
    the history of the batter: the on-base percentage and the batting
    average lie between 0 and 1, the slugging between 0 and 4. *)
Theorem scrape_rates_are_bounded (p : Player) :
  (exists q, Scrape.OBP p = Ok q /\ (0 <= q <= 1)%Q) /\
  (exists q, Scrape.AVE p = Ok q /\ (0 <= q <= 1)%Q) /\
  (exists q, Scrape.slugging p = Ok q /\ (0 <= q <= 4)%Q).
Proof.
  split; [| split].
  - unfold Scrape.OBP. destruct (stats p) as [| a l] eqn:E.
    + exists 0%Q. split; [reflexivity | split; discriminate].
    + apply py_div_bounds; [cbn; lia | apply filter_length_le].
  - unfold Scrape.AVE. destruct (filter (differs "WALK") (stats p)) as [| a l] eqn:E.
    + exists 0%Q. split; [reflexivity | split; discriminate].
    + apply py_div_bounds; [cbn; lia | apply filter_length_le].
  - unfold Scrape.slugging. destruct (stats p) as [| a l] eqn:E.
    + exists 0%Q. split; [reflexivity | split; discriminate].
    + eexists. split; [reflexivity |].
      apply (quotient_bounds _ _ 4); [cbn [List.length]; lia |].
      apply total_bases_bounds. exact scrape_bases_bounds.
Qed.

(** X17.  The rates of [baseball_sim.py] raise [ZeroDivisionError] on an
    empty denominator and on nothing else: the on-base percentage and
    the slugging on an empty history, the batting average on a history
    without an at-bat other than ['WALK']; otherwise the on-base
    percentage and the batting average are those of
    [baseball_sim_with_scrape.py], and the slugging lies between 0 and
    4. *)
Theorem sim_rates_raise_on_nothing_else (p : Player) :
  match stats p with
  | [] => Sim.OBP p = Raise ZeroDivisionError
  | _ :: _ => Sim.OBP p = Scrape.OBP p
  end /\
  match filter (differs "WALK") (stats p) with
  | [] => Sim.AVE p = Raise ZeroDivisionError
  | _ :: _ => Sim.AVE p = Scrape.AVE p
  end /\
  match stats p with
  | [] => Sim.slugging p = Raise ZeroDivisionError
  | _ :: _ => exists q, Sim.slugging p = Ok q /\ (0 <= q <= 4)%Q
  end.
Proof.
  split; [| split].
  - unfold Sim.OBP, Scrape.OBP. destruct (stats p); reflexivity.
  - unfold Sim.AVE, Scrape.AVE. destruct (filter (differs "WALK") (stats p)); reflexivity.
  - unfold Sim.slugging. destruct (stats p) as [| a l] eqn:E; [reflexivity |].
    eexists. split; [reflexivity |].
    apply (quotient_bounds _ _ 4); [cbn [List.length]; lia |].
    apply total_bases_bounds. exact sim_bases_bounds.
Qed.
